(** * Session and token-refresh proxy layer of the dashboard backend

    A shallow embedding of [server/storage.ts] (the in-memory session
    store) and of the authentication middleware, the proxy dispatcher
    and the auth routes of [server/routes.ts].

    The TypeScript code is asynchronous: a handler runs synchronously
    until it awaits an upstream HTTP call, and other handlers may run
    while it is suspended.  Handlers are therefore embedded as
    resumptions ([prog]): trees of synchronous effects on the shared
    session map, the clock and the UUID generator, cut at every awaited
    upstream call.  One definition of each handler serves both the
    sequential semantics ([run]) and the interleaving semantics
    ([resume]) of concurrent requests. *)

From stdpp Require Import gmap strings list fin_maps.
From Stdlib Require Import ZArith Lia.

Local Open Scope Z_scope.

(** ** Data model (shared/schema.ts, server/storage.ts) *)

Record AuthTokens := mkAuthTokens {
  access_token : string;
  refresh_token : option string;
  token_type : string;
  expires_in : Z;
}.

Record UserMe := mkUserMe {
  user_id : Z;
  user_email : string;
  user_name : string;
  user_locale : option string;
  user_timezone : option string;
}.

Record CustomerMe := mkCustomerMe {
  customer_id : Z;
  customer_name : string;
  customer_email : option string;
  customer_phone : option string;
  customer_address : option string;
  customer_city : option string;
  customer_postal_code : option string;
  customer_country : option string;
  customer_company_name : option string;
  customer_vat_number : option string;
}.

Record SessionData := mkSessionData {
  accessToken : string;
  refreshToken : option string;
  expiresAt : Z;
  user : option UserMe;
  customer : option CustomerMe;
}.

(** [Partial<SessionData>]: a key is absent ([None]) or present with a
    value; [refreshToken], [user] and [customer] may be present with the
    value [undefined]. *)
Record PartialSessionData := mkPartial {
  p_accessToken : option string;
  p_refreshToken : option (option string);
  p_expiresAt : option Z;
  p_user : option (option UserMe);
  p_customer : option (option CustomerMe);
}.

Record SessionInfo := mkSessionInfo {
  isAuthenticated : bool;
  info_user : option UserMe;
  info_customer : option CustomerMe;
}.

(** The object spread [{ ...session, ...data }]. *)
Definition spread (session : SessionData) (data : PartialSessionData) : SessionData :=
  {| accessToken := default (accessToken session) (p_accessToken data);
     refreshToken := default (refreshToken session) (p_refreshToken data);
     expiresAt := default (expiresAt session) (p_expiresAt data);
     user := default (user session) (p_user data);
     customer := default (customer session) (p_customer data) |}.

(** JavaScript truthiness of a [string | undefined]: [undefined] and the
    empty string are falsy. *)
Definition truthy (v : option string) : bool :=
  match v with
  | Some s => negb (String.eqb s "")
  | None => false
  end.

(** [a || b] on [string | undefined]. *)
Definition js_or (a b : option string) : option string :=
  if truthy a then a else b.

(** [s.includes(sub)]. *)
Fixpoint includes (sub s : string) : bool :=
  String.prefix sub s ||
  match s with
  | EmptyString => false
  | String _ s' => includes sub s'
  end.

Definition SESSION_COOKIE : string := "jfl_session".
Definition TOKEN_REFRESH_BUFFER_MS : Z := 5 * 60 * 1000.

(** ** Upstream HTTP calls *)

(** The JSON document a request carries, before [JSON.stringify]. *)
Inductive RequestBody :=
| NoBody
| RefreshBody (refresh_token : string)
| PincodeBody (connector_uuid pincode : string)
| OtpBody (otp : string)
| OpaqueBody (payload : string).

Record FetchRequest := mkFetchRequest {
  url : string;
  method : string;
  authorization : option string;
  body : RequestBody;
}.

Section Backend.

(** What [response.json()] resolves to.  The code relays it, tests it
    for truthiness, or reads it at the type [AuthTokens] that the
    handlers declare for the body of a successful credential exchange
    ([as_tokens], the unchecked cast of the TypeScript code). *)
Context {Json : Type} (as_tokens : Json → AuthTokens).

(** JavaScript truthiness of a parsed JSON value: [null], [false], [0]
    and [""] are falsy, every object and array is truthy. *)
Context (json_truthy : Json → bool).

(** [process.env.API_BASE_URL || "https://api.example.com"]. *)
Context (API_BASE_URL : string).

(** zod's [z.string().uuid()] check, which is not part of the repository. *)
Context (is_uuid : string → bool).

Record Response := mkResponse {
  status : Z;
  content_type : option string;   (* response.headers.get("content-type") *)
  text : string;                  (* response.text() *)
  json : option Json;             (* response.json(); None when it rejects *)
}.

(** [response.ok] *)
Definition ok (r : Response) : bool := (200 <=? status r) && (status r <=? 299).

(** A [fetch] promise rejects (network failure) or resolves. *)
Inductive FetchOutcome :=
| Rejected
| Resolved (response : Response).

(** ** Handlers as resumptions *)

(** Synchronous effects: the clock, the UUID generator and the
    [Map<string, SessionData>] held by the one [MemStorage] instance. *)
Inductive effect : Type → Type :=
| DateNow : effect Z
| RandomUUID : effect string
| SessionsGet (sessionId : string) : effect (option SessionData)
| SessionsSet (sessionId : string) (v : SessionData) : effect unit
| SessionsDelete (sessionId : string) : effect unit.

Inductive prog (R : Type) : Type :=
| Ret (r : R)
| Do {X : Type} (e : effect X) (k : X → prog R)
| Await (rq : FetchRequest) (k : FetchOutcome → prog R).

Arguments Ret {R} r.
Arguments Do {R X} e k.
Arguments Await {R} rq k.

Fixpoint bind {A B} (m : prog A) (f : A → prog B) : prog B :=
  match m with
  | Ret a => f a
  | Do e k => Do e (λ x, bind (k x) f)
  | Await rq k => Await rq (λ x, bind (k x) f)
  end.

#[global] Instance prog_ret : MRet prog := @Ret.
#[global] Instance prog_bind : MBind prog := λ A B f m, bind m f.

Definition perform {X} (e : effect X) : prog X := Do e Ret.
Definition fetch (rq : FetchRequest) : prog FetchOutcome := Await rq Ret.

(** ** server/storage.ts: class MemStorage *)

Definition createSession (tokens : AuthTokens)
    (user : option UserMe) (customer : option CustomerMe) : prog string :=
  sessionId ← perform RandomUUID;
  now ← perform DateNow;
  let expiresAt := now + expires_in tokens * 1000 in
  _ ← perform (SessionsSet sessionId
        {| accessToken := access_token tokens;
           refreshToken := refresh_token tokens;
           expiresAt := expiresAt;
           user := user;
           customer := customer |});
  mret sessionId.

Definition getSession (sessionId : string) : prog (option SessionData) :=
  perform (SessionsGet sessionId).

Definition updateSession (sessionId : string) (data : PartialSessionData) : prog unit :=
  session ← perform (SessionsGet sessionId);
  match session with
  | Some session => perform (SessionsSet sessionId (spread session data))
  | None => mret tt
  end.

Definition deleteSession (sessionId : string) : prog unit :=
  perform (SessionsDelete sessionId).

Definition getSessionInfo (sessionId : string) : prog SessionInfo :=
  session ← perform (SessionsGet sessionId);
  match session with
  | None => mret (mkSessionInfo false None None)
  | Some session =>
      now ← perform DateNow;
      if expiresAt session <? now then
        _ ← perform (SessionsDelete sessionId);
        mret (mkSessionInfo false None None)
      else
        mret (mkSessionInfo true (user session) (customer session))
  end.

(** ** server/routes.ts *)

Record RequestInit := mkRequestInit {
  init_method : string;
  init_body : RequestBody;
}.

(** The [url] and the merged [{ ...options, headers }] that [apiRequest]
    hands to [fetch]. *)
Definition request_of (path : string) (options : RequestInit)
    (accessToken : option string) : FetchRequest :=
  let authorization :=
    if truthy accessToken then Some ("Bearer " +:+ default "" accessToken) else None in
  {| url := API_BASE_URL +:+ path;
     method := init_method options;
     authorization := authorization;
     body := init_body options |}.

Definition apiRequest (path : string) (options : RequestInit)
    (accessToken : option string) : prog FetchOutcome :=
  fetch (request_of path options accessToken).

(** The [null] that [refreshTokens] returns itself is [None]: a rejected
    fetch, a non-2xx status and a body that is not JSON all end in it.
    Otherwise the parsed body is returned as it is, whatever it is. *)
Definition refreshTokens (refreshToken : string) : prog (option Json) :=
  r ← apiRequest "/v1/authenticate/refresh"
        {| init_method := "POST"; init_body := RefreshBody refreshToken |} None;
  match r with
  | Rejected => mret None
  | Resolved response =>
      if negb (ok response) then mret None
      else mret (json response)
  end.

(** [if (newTokens)], the test both callers of [refreshTokens] make: a
    falsy value is a failed refresh, a truthy one is read as the
    credentials that the declared return type promises. *)
Definition accepted (newTokens : option Json) : option AuthTokens :=
  match newTokens with
  | Some j => if json_truthy j then Some (as_tokens j) else None
  | None => None
  end.

(** What a handler sends back: [res.status(..).json(..)] or [.send(..)],
    and what it did to the session cookie. *)
Inductive ReplyBody :=
| JsonMessage (message : string)
| JsonSuccess
| JsonInvalidRequest
| JsonSessionInfo (info : SessionInfo)
| JsonRelay (data : Json)
| TextRelay (text : string).

Inductive CookieAction :=
| CookieUntouched
| CookieSet (sessionId : string)
| CookieCleared.

Record HttpReply := mkReply {
  reply_status : Z;
  reply_body : ReplyBody;
  reply_cookie : CookieAction;
}.

Definition unauthorized : HttpReply :=
  mkReply 401 (JsonMessage "Unauthorized") CookieUntouched.
Definition session_expired : HttpReply :=
  mkReply 401 (JsonMessage "Session expired") CookieCleared.
Definition internal_error : HttpReply :=
  mkReply 500 (JsonMessage "Internal server error") CookieUntouched.

(** What the handlers read of the inbound request: the cookies that
    cookie-parser found ([req.cookies], possibly undefined). *)
Record Request := mkRequest {
  cookies : option (gmap string string);
}.

(** [req.cookies?.[SESSION_COOKIE]] *)
Definition getSessionId (req : Request) : option string :=
  cookies req ≫= (λ jar, jar !! SESSION_COOKIE).

(** The middleware either answers itself or calls [next()] with
    [req.session] and [req.sessionId] set. *)
Inductive AuthResult :=
| Replied (reply : HttpReply)
| Next (session : option SessionData) (sessionId : string).

Definition requireAuth (req : Request) : prog AuthResult :=
  let sessionId := getSessionId req in
  if negb (truthy sessionId) then mret (Replied unauthorized)
  else
    let sessionId := default "" sessionId in
    session ← getSession sessionId;
    match session with
    | None => mret (Replied session_expired)
    | Some session =>
        now ← perform DateNow;
        if (expiresAt session <? now + TOKEN_REFRESH_BUFFER_MS)
           && truthy (refreshToken session) then
          newTokens ← refreshTokens (default "" (refreshToken session));
          match accepted newTokens with
          | Some newTokens =>
              now ← perform DateNow;
              _ ← updateSession sessionId
                    {| p_accessToken := Some (access_token newTokens);
                       p_refreshToken :=
                         Some (js_or (refresh_token newTokens) (refreshToken session));
                       p_expiresAt := Some (now + expires_in newTokens * 1000);
                       p_user := None;
                       p_customer := None |};
              _ ← getSession sessionId;
              session ← getSession sessionId;
              mret (Next session sessionId)
          | None => mret (Replied session_expired)
          end
        else
          now ← perform DateNow;
          if expiresAt session <? now then mret (Replied session_expired)
          else
            session ← getSession sessionId;
            mret (Next session sessionId)
    end.

(** The tail of [proxyRequest]: relay the upstream response, except that
    a 401 ends the session on the client. *)
Definition relay (response : Response) : HttpReply :=
  if status response =? 401 then session_expired
  else if default false (includes "application/json" <$> content_type response) then
    match json response with
    | Some data => mkReply (status response) (JsonRelay data) CookieUntouched
    | None => internal_error
    end
  else mkReply (status response) (TextRelay (text response)) CookieUntouched.

Definition proxyRequest (session : option SessionData) (sessionId : string)
    (method apiPath : string) (body : option string) : prog HttpReply :=
  let init := {| init_method := method;
                 init_body := from_option OpaqueBody NoBody body |} in
  r ← apiRequest apiPath init (accessToken <$> session);
  match r with
  | Rejected => mret internal_error
  | Resolved response =>
      if (status response =? 401) && truthy (session ≫= refreshToken) then
        newTokens ← refreshTokens (default "" (session ≫= refreshToken));
        match accepted newTokens with
        | Some newTokens =>
            now ← perform DateNow;
            _ ← updateSession sessionId
                  {| p_accessToken := Some (access_token newTokens);
                     p_refreshToken :=
                       Some (js_or (refresh_token newTokens) (session ≫= refreshToken));
                     p_expiresAt := Some (now + expires_in newTokens * 1000);
                     p_user := None;
                     p_customer := None |};
            r ← apiRequest apiPath init (Some (access_token newTokens));
            match r with
            | Rejected => mret internal_error
            | Resolved response => mret (relay response)
            end
        | None => mret session_expired
        end
      else mret (relay response)
  end.

(** A protected route: [app.get(path, requireAuth, (req, res) =>
    proxyRequest(req, res, method, apiPath))]. *)
Definition protected_route (req : Request)
    (method apiPath : string) (body : option string) : prog HttpReply :=
  auth ← requireAuth req;
  match auth with
  | Replied reply => mret reply
  | Next session sessionId => proxyRequest session sessionId method apiPath body
  end.

Record LoginPincodeRequest := mkLoginPincode {
  connector_uuid : string;
  pincode : string;
}.

(** [loginPincodeSchema.parse]; [None] stands for the thrown [ZodError]. *)
Definition loginPincodeSchema_parse (data : LoginPincodeRequest)
    : option LoginPincodeRequest :=
  if is_uuid (connector_uuid data) && (4 <=? String.length (pincode data))%nat
  then Some data else None.

(** [loginOtpSchema.parse] *)
Definition loginOtpSchema_parse (otp : string) : option string :=
  if (6 <=? String.length otp)%nat then Some otp else None.

Definition login_failed : HttpReply :=
  mkReply 500 (JsonMessage "Login failed") CookieUntouched.

(** What both login routes do with the upstream's answer. *)
Definition login_exchange (r : FetchOutcome) : prog HttpReply :=
  match r with
  | Rejected => mret login_failed
  | Resolved response =>
      if negb (ok response) then
        let error :=
          from_option JsonRelay (JsonMessage "Login failed") (json response) in
        mret (mkReply (status response) error CookieUntouched)
      else
        match json response with
        | None => mret login_failed
        | Some tokens =>
            sessionId ← createSession (as_tokens tokens) None None;
            mret (mkReply 200 JsonSuccess (CookieSet sessionId))
        end
  end.

(** POST /api/auth/login-pincode *)
Definition login_pincode (reqBody : LoginPincodeRequest) : prog HttpReply :=
  match loginPincodeSchema_parse reqBody with
  | None => mret (mkReply 400 JsonInvalidRequest CookieUntouched)
  | Some data =>
      r ← apiRequest "/v2/authenticate/pincode"
            {| init_method := "POST";
               init_body := PincodeBody (connector_uuid data) (pincode data) |} None;
      login_exchange r
  end.

(** POST /api/auth/login-otp *)
Definition login_otp (reqBody : string) : prog HttpReply :=
  match loginOtpSchema_parse reqBody with
  | None => mret (mkReply 400 JsonInvalidRequest CookieUntouched)
  | Some data =>
      r ← apiRequest "/v1/authenticate/otp"
            {| init_method := "POST"; init_body := OtpBody data |} None;
      login_exchange r
  end.

(** POST /api/auth/logout *)
Definition logout (req : Request) : prog HttpReply :=
  let sessionId := getSessionId req in
  _ ← (if truthy sessionId then deleteSession (default "" sessionId) else mret tt);
  mret (mkReply 200 JsonSuccess CookieCleared).

(** GET /api/auth/session *)
Definition auth_session (req : Request) : prog HttpReply :=
  let sessionId := getSessionId req in
  if negb (truthy sessionId) then
    mret (mkReply 200 (JsonSessionInfo (mkSessionInfo false None None)) CookieUntouched)
  else
    sessionInfo ← getSessionInfo (default "" sessionId);
    mret (mkReply 200 (JsonSessionInfo sessionInfo) CookieUntouched).

(** ** The environment and the two semantics *)

(** The world outside the process: its clock, its random source and the
    upstream API.  Each is an arbitrary deterministic oracle on a world
    state [W]; reading the clock may advance it. *)
Context {W : Type}.
Context (env_now : W → Z * W).
Context (env_uuid : W → string * W).
Context (env_fetch : W → FetchRequest → FetchOutcome * W).

Record Machine := mkMachine {
  sessions : gmap string SessionData;
  world : W;
}.

Definition handle {X} (e : effect X) (m : Machine) : X * Machine :=
  match e with
  | DateNow =>
      let '(t, w) := env_now (world m) in (t, mkMachine (sessions m) w)
  | RandomUUID =>
      let '(u, w) := env_uuid (world m) in (u, mkMachine (sessions m) w)
  | SessionsGet sessionId => (sessions m !! sessionId, m)
  | SessionsSet sessionId v => (tt, mkMachine (<[sessionId := v]> (sessions m)) (world m))
  | SessionsDelete sessionId => (tt, mkMachine (delete sessionId (sessions m)) (world m))
  end.

Record Outcome (R : Type) := mkOutcome {
  result : R;
  final : Machine;
  calls : list FetchRequest;   (* the upstream calls made, in order *)
}.
Arguments mkOutcome {R}.
Arguments result {R}.
Arguments final {R}.
Arguments calls {R}.

(** One request served alone, from start to finish. *)
Fixpoint run {R} (p : prog R) (m : Machine) : Outcome R :=
  match p with
  | Ret r => mkOutcome r m []
  | Do e k => let '(x, m') := handle e m in run (k x) m'
  | Await rq k =>
      let '(o, w) := env_fetch (world m) rq in
      let out := run (k o) (mkMachine (sessions m) w) in
      mkOutcome (result out) (final out) (rq :: calls out)
  end.

(** Concurrent requests.  A request is ready to start, suspended at an
    awaited upstream call (which is then in flight), or finished.  The
    code between two awaits runs without interruption; the scheduler
    picks which request starts or which in-flight call completes next. *)
Inductive task (R : Type) : Type :=
| Ready (p : prog R)
| Awaiting (rq : FetchRequest) (k : FetchOutcome → prog R)
| Finished (r : R).
Arguments Ready {R} p.
Arguments Awaiting {R} rq k.
Arguments Finished {R} r.

Fixpoint advance {R} (p : prog R) (m : Machine) : task R * Machine :=
  match p with
  | Ret r => (Finished r, m)
  | Do e k => let '(x, m') := handle e m in advance (k x) m'
  | Await rq k => (Awaiting rq k, m)
  end.

Definition resume_task {R} (t : task R) (m : Machine) : task R * Machine :=
  match t with
  | Ready p => advance p m
  | Awaiting rq k =>
      let '(o, w) := env_fetch (world m) rq in
      advance (k o) (mkMachine (sessions m) w)
  | Finished r => (Finished r, m)
  end.

Record Server (R : Type) := mkServer {
  tasks : list (task R);
  machine : Machine;
}.
Arguments mkServer {R}.
Arguments tasks {R}.
Arguments machine {R}.

Definition resume {R} (s : Server R) (i : nat) : Server R :=
  match tasks s !! i with
  | Some t =>
      let '(t', m') := resume_task t (machine s) in
      mkServer (<[i := t']> (tasks s)) m'
  | None => s
  end.

Definition schedule {R} (s : Server R) (order : list nat) : Server R :=
  foldl resume s order.

(** Only [refreshTokens] builds a [RefreshBody]. *)
Definition is_refresh (rq : FetchRequest) : bool :=
  match body rq with
  | RefreshBody _ => true
  | _ => false
  end.

Definition awaiting_refresh {R} (t : task R) : bool :=
  match t with
  | Awaiting rq _ => is_refresh rq
  | _ => false
  end.

Definition in_flight_refreshes {R} (s : Server R) : nat :=
  length (filter (λ t, awaiting_refresh t = true) (tasks s)).

(** The request carries [sessionId] in its session cookie. *)
Definition presents (req : Request) (sessionId : string) : Prop :=
  getSessionId req = Some sessionId ∧ sessionId ≠ "".

(** The request [refreshTokens] sends, and the request [proxyRequest]
    sends with a given access token. *)
Definition refresh_request (refreshToken : string) : FetchRequest :=
  request_of "/v1/authenticate/refresh"
    {| init_method := "POST"; init_body := RefreshBody refreshToken |} None.

Definition forward_request (method apiPath : string) (body : option string)
    (accessToken : option string) : FetchRequest :=
  request_of apiPath
    {| init_method := method; init_body := from_option OpaqueBody NoBody body |}
    accessToken.

(** What [refreshTokens], called in world [w], returns, and the world it
    leaves. *)
Definition refresh_reply (w : W) (refreshToken : string) : option Json * W :=
  let out := run (refreshTokens refreshToken) (mkMachine ∅ w) in
  (result out, world (final out)).

(** What a refresh exchange started in world [w] gives the handler that
    started it: the credentials it accepts, or none. *)
Definition refresh_outcome (w : W) (refreshToken : string) : option AuthTokens * W :=
  (accepted (refresh_reply w refreshToken).1, (refresh_reply w refreshToken).2).

(** What [n] successive readings of the clock give, from world [w] on. *)
Fixpoint readings (n : nat) (w : W) : list Z :=
  match n with
  | O => []
  | S n => let '(t, w') := env_now w in t :: readings n w'
  end.

(** The upstream answers request [rq], made in world [w], with status 401. *)
Definition answers_401 (w : W) (rq : FetchRequest) (w' : W) : Prop :=
  ∃ response, env_fetch w rq = (Resolved response, w') ∧ status response = 401.

(** The request the pincode login sends. *)
Definition pincode_request (data : LoginPincodeRequest) : FetchRequest :=
  request_of "/v2/authenticate/pincode"
    {| init_method := "POST";
       init_body := PincodeBody (connector_uuid data) (pincode data) |} None.

(** The row [createSession] stores when the clock reads [now]. *)
Definition created (tokens : AuthTokens) (user : option UserMe)
    (customer : option CustomerMe) (now : Z) : SessionData :=
  {| accessToken := access_token tokens;
     refreshToken := refresh_token tokens;
     expiresAt := now + expires_in tokens * 1000;
     user := user;
     customer := customer |}.

(** The object both refresh paths pass to [updateSession]; [previous] is
    the refresh token of the session object the handler holds. *)
Definition refresh_data (previous : option string) (newTokens : AuthTokens)
    (now : Z) : PartialSessionData :=
  {| p_accessToken := Some (access_token newTokens);
     p_refreshToken := Some (js_or (refresh_token newTokens) previous);
     p_expiresAt := Some (now + expires_in newTokens * 1000);
     p_user := None;
     p_customer := None |}.

Definition refreshed (session : SessionData) (newTokens : AuthTokens) (now : Z)
    : SessionData :=
  spread session (refresh_data (refreshToken session) newTokens now).

(** Among the upstream calls of a forwarded request, the refresh
    exchanges, and the attempts at the forwarded call itself. *)
Definition refresh_calls (l : list FetchRequest) : nat :=
  length (filter (λ rq, is_refresh rq = true) l).

Definition forwarded_calls (l : list FetchRequest) : nat :=
  length (filter (λ rq, is_refresh rq = false) l).

(** ** server/routes.ts: the other routes of [registerRoutes] *)

(** The zod schemas of shared/schema.ts that the routes parse [req.body]
    with, other than the two login schemas.  zod itself is not part of
    the repository: [zod_parse schema body] is the JSON text of the
    validated object, or [None] for the [ZodError] that [parse] throws. *)
Inductive Schema :=
| forgotPasswordSchema
| editCustomerSchema
| addFavoriteSchema
| calculatePricesSchema
| createTicketSchema
| createEmployeeSchema
| editEmployeeSchema
| translateTextSchema
| sendControlMessageSchema.

Context (zod_parse : Schema → option string → option string).

Definition invalid_request : HttpReply :=
  mkReply 400 JsonInvalidRequest CookieUntouched.
Definition request_failed : HttpReply :=
  mkReply 500 (JsonMessage "Request failed") CookieUntouched.

(** POST /api/auth/forgot-password *)
Definition forgot_password (reqBody : option string) : prog HttpReply :=
  match zod_parse forgotPasswordSchema reqBody with
  | None => mret invalid_request
  | Some data =>
      r ← apiRequest "/legacy/api/mobile/authentication/authenticate/forgot-password"
            {| init_method := "POST"; init_body := OpaqueBody data |} None;
      match r with
      | Rejected => mret request_failed
      | Resolved response =>
          if negb (ok response) then
            let error :=
              from_option JsonRelay (JsonMessage "Request failed") (json response) in
            mret (mkReply (status response) error CookieUntouched)
          else mret (mkReply 200 JsonSuccess CookieUntouched)
      end
  end.

(** How a data route names its upstream path: a constant, a template
    around [req.params.id], or a constant followed by the query string
    [new URLSearchParams(req.query).toString()] when that is not empty. *)
Inductive Target :=
| Fixed (apiPath : string)
| ById (prefix suffix : string)
| Queried (apiPath : string).

(** What a data route forwards as body: nothing, [req.body] validated by
    a schema, or [req.body] as it came. *)
Inductive Payload :=
| NoPayload
| Validated (schema : Schema)
| RawPayload.

Inductive Handler :=
| LoginPincode
| LoginOtp
| ForgotPassword
| Logout
| SessionQuery
| Proxy (method : string) (target : Target) (payload : Payload).

Inductive Verb := GET | POST | PUT | DELETE.

(** One [app.<verb>(pattern, [requireAuth,] handler)] registration. *)
Record Route := mkRoute {
  verb : Verb;
  pattern : string;
  middleware : bool;
  handler : Handler;
}.

(** What the handlers read of an inbound request besides its cookies:
    [req.params.id], the encoded query string, and [req.body] (as JSON
    text, and as the login routes read it). *)
Record Inbound := mkInbound {
  in_req : Request;
  in_id : string;
  in_query : string;
  in_body : option string;
  in_pincode : LoginPincodeRequest;
  in_otp : string;
}.

Definition apiPath_of (target : Target) (inb : Inbound) : string :=
  match target with
  | Fixed apiPath => apiPath
  | ById prefix suffix => prefix +:+ in_id inb +:+ suffix
  | Queried apiPath =>
      apiPath +:+ (if truthy (Some (in_query inb)) then "?" +:+ in_query inb else "")
  end.

(** The handler of a data route.  A validated route parses first and
    answers 400 on a [ZodError]; [proxyRequest] catches every failure
    itself, so the route's own 500 answer is never reached. *)
Definition proxy_handler (method : string) (target : Target) (payload : Payload)
    (inb : Inbound) (session : option SessionData) (sessionId : string)
    : prog HttpReply :=
  match payload with
  | NoPayload => proxyRequest session sessionId method (apiPath_of target inb) None
  | Validated schema =>
      match zod_parse schema (in_body inb) with
      | None => mret invalid_request
      | Some data =>
          proxyRequest session sessionId method (apiPath_of target inb) (Some data)
      end
  | RawPayload =>
      proxyRequest session sessionId method (apiPath_of target inb) (in_body inb)
  end.

Definition run_handler (h : Handler) (inb : Inbound)
    (session : option SessionData) (sessionId : string) : prog HttpReply :=
  match h with
  | LoginPincode => login_pincode (in_pincode inb)
  | LoginOtp => login_otp (in_otp inb)
  | ForgotPassword => forgot_password (in_body inb)
  | Logout => logout (in_req inb)
  | SessionQuery => auth_session (in_req inb)
  | Proxy method target payload =>
      proxy_handler method target payload inb session sessionId
  end.

(** Express runs the middleware, then the handler if the middleware
    called [next()].  Without the middleware [req.session] and
    [req.sessionId] are undefined. *)
Definition serve (r : Route) (inb : Inbound) : prog HttpReply :=
  if middleware r then
    auth ← requireAuth (in_req inb);
    match auth with
    | Replied reply => mret reply
    | Next session sessionId => run_handler (handler r) inb session sessionId
    end
  else run_handler (handler r) inb None "".

(** The registrations of [registerRoutes], in source order. *)
Definition routes : list Route :=
  [ mkRoute POST "/api/auth/login-pincode" false LoginPincode;
    mkRoute POST "/api/auth/login-otp" false LoginOtp;
    mkRoute POST "/api/auth/forgot-password" false ForgotPassword;
    mkRoute POST "/api/auth/logout" false Logout;
    mkRoute GET "/api/auth/session" false SessionQuery;
    mkRoute GET "/api/users/me" true (Proxy "GET" (Fixed "/v1/users/me") NoPayload);
    mkRoute GET "/api/customers/me" true
      (Proxy "GET" (Fixed "/v1/customers/me") NoPayload);
    mkRoute PUT "/api/customers/me" true
      (Proxy "PUT" (Fixed "/v1/customers/me") (Validated editCustomerSchema));
    mkRoute GET "/api/customer-wallet" true
      (Proxy "GET" (Fixed "/v1/customer-wallet") NoPayload);
    mkRoute GET "/api/connectors" true
      (Proxy "GET" (Queried "/v1/connectors") NoPayload);
    mkRoute GET "/api/connectors/:id" true
      (Proxy "GET" (ById "/v1/connectors/" "") NoPayload);
    mkRoute GET "/api/vehicles/makes" true
      (Proxy "GET" (Fixed "/v1/vehicles/makes") NoPayload);
    mkRoute GET "/api/vehicles/makes/:id" true
      (Proxy "GET" (ById "/v1/vehicles/makes/" "") NoPayload);
    mkRoute GET "/api/vehicles/model-groups" true
      (Proxy "GET" (Queried "/v1/vehicles/model-groups") NoPayload);
    mkRoute GET "/api/vehicles/model-groups/:id" true
      (Proxy "GET" (ById "/v1/vehicles/model-groups/" "") NoPayload);
    mkRoute GET "/api/vehicles/models" true
      (Proxy "GET" (Queried "/v1/vehicles/models") NoPayload);
    mkRoute GET "/api/vehicles/models/:id" true
      (Proxy "GET" (ById "/v1/vehicles/models/" "") NoPayload);
    mkRoute GET "/api/vehicles/model-variants" true
      (Proxy "GET" (Queried "/v1/vehicles/model-variants") NoPayload);
    mkRoute GET "/api/vehicles/model-variants/:id" true
      (Proxy "GET" (ById "/v1/vehicles/model-variants/" "") NoPayload);
    mkRoute GET "/api/vehicles/search" true
      (Proxy "GET" (Queried "/v1/vehicles/search") NoPayload);
    mkRoute GET "/api/products" true (Proxy "GET" (Fixed "/v1/products") NoPayload);
    mkRoute GET "/api/product-groups" true
      (Proxy "GET" (Fixed "/v1/product-groups") NoPayload);
    mkRoute GET "/api/product-bundles" true
      (Proxy "GET" (Queried "/v1/product-bundles") NoPayload);
    mkRoute POST "/api/favorite-products" true
      (Proxy "POST" (Fixed "/v1/favorite-products") (Validated addFavoriteSchema));
    mkRoute DELETE "/api/favorite-products/:id" true
      (Proxy "DELETE" (ById "/v1/favorite-products/" "") NoPayload);
    mkRoute POST "/api/cart/calculate-prices" true
      (Proxy "POST" (Fixed "/v1/cart/calculate-prices")
         (Validated calculatePricesSchema));
    mkRoute GET "/api/prepared-tickets" true
      (Proxy "GET" (Queried "/v1/prepared-tickets") NoPayload);
    mkRoute POST "/api/tickets" true
      (Proxy "POST" (Fixed "/v1/tickets") (Validated createTicketSchema));
    mkRoute GET "/api/tickets/:id/notes" true
      (Proxy "GET" (ById "/v1/tickets/" "/notes") NoPayload);
    mkRoute GET "/api/historical-tickets" true
      (Proxy "GET" (Queried "/v1/historical-tickets") NoPayload);
    mkRoute GET "/api/employees" true (Proxy "GET" (Fixed "/v1/employees") NoPayload);
    mkRoute POST "/api/employees" true
      (Proxy "POST" (Fixed "/v1/employees") (Validated createEmployeeSchema));
    mkRoute GET "/api/employees/:id" true
      (Proxy "GET" (ById "/v1/employees/" "") NoPayload);
    mkRoute PUT "/api/employees/:id" true
      (Proxy "PUT" (ById "/v1/employees/" "") (Validated editEmployeeSchema));
    mkRoute GET "/api/chats/:id" true (Proxy "GET" (ById "/v1/chats/" "") NoPayload);
    mkRoute GET "/api/chats" true (Proxy "GET" (Queried "/v1/chats") NoPayload);
    mkRoute GET "/api/service-center" true
      (Proxy "GET" (Fixed "/v1/service-center") NoPayload);
    mkRoute GET "/api/service-center/status" true
      (Proxy "GET" (Fixed "/v1/service-center/status") NoPayload);
    mkRoute GET "/api/system/countries" true
      (Proxy "GET" (Fixed "/v1/system/countries") NoPayload);
    mkRoute GET "/api/system/currencies" true
      (Proxy "GET" (Fixed "/v1/system/currencies") NoPayload);
    mkRoute GET "/api/channels/:id" true
      (Proxy "GET" (ById "/v1/channels/" "") NoPayload);
    mkRoute POST "/api/translate" true
      (Proxy "POST" (Fixed "/v1/translate") (Validated translateTextSchema));
    mkRoute POST "/api/channel-actions/send-control-message" true
      (Proxy "POST" (Fixed "/v1/channel-actions/send-control-message")
         (Validated sendControlMessageSchema));
    mkRoute GET "/api/channel-attachments" true
      (Proxy "GET" (Queried "/v1/channel-attachments") NoPayload);
    mkRoute POST "/api/channel-attachments" true
      (Proxy "POST" (Fixed "/v1/channel-attachments") RawPayload) ].

(** The method name of [app.get], [app.post], [app.put], [app.delete]. *)
Definition verb_name (v : Verb) : string :=
  match v with
  | GET => "GET"
  | POST => "POST"
  | PUT => "PUT"
  | DELETE => "DELETE"
  end.

(** The constant part an upstream path starts with. *)
Definition target_prefix (target : Target) : string :=
  match target with
  | Fixed apiPath => apiPath
  | ById prefix _ => prefix
  | Queried apiPath => apiPath
  end.

(** No row of the store carries a user or a customer. *)
Definition no_identity (store : gmap string SessionData) : Prop :=
  ∀ sessionId row,
    store !! sessionId = Some row → user row = None ∧ customer row = None.

(** The store [after] is the store [before], or the store [before] with
    the row of [sessionId] replaced by one with the same user and
    customer. *)
Definition same_or_rewritten (sessionId : option string)
    (before after : gmap string SessionData) : Prop :=
  after = before ∨
  ∃ sid row row',
    sessionId = Some sid ∧ before !! sid = Some row ∧
    after = <[sid := row']> before ∧
    user row' = user row ∧ customer row' = customer row.

End Backend.

Arguments Ret {Json R} r.
Arguments Do {Json R X} e k.
Arguments Await {Json R} rq k.
Arguments mkOutcome {W R}.
Arguments result {W R}.
Arguments final {W R}.
Arguments calls {W R}.
Arguments Ready {Json R} p.
Arguments Awaiting {Json R} rq k.
Arguments Finished {Json R} r.
Arguments mkServer {Json W R}.
Arguments tasks {Json W R}.
Arguments machine {Json W R}.

(** ** A scripted environment, to run the handlers on concrete inputs *)

Module Script.

(** The upstream's JSON documents: credentials, any other object, or
    [null]. *)
Inductive document :=
| Credentials (tokens : AuthTokens)
| Document (raw : string)
| Null.

(** Reading a foreign document as credentials finds none of the fields. *)
Definition as_tokens (d : document) : AuthTokens :=
  match d with
  | Credentials tokens => tokens
  | Document _ | Null => mkAuthTokens "" None "" 0
  end.

(** Of these documents only [null] is falsy. *)
Definition json_truthy (d : document) : bool :=
  match d with
  | Null => false
  | _ => true
  end.

(** The clock, the UUIDs still to be drawn, and the upstream's answers
    still to come, each with the time it takes. *)
Record env := mkEnv {
  clock : Z;
  uuids : list string;
  replies : list (Z * @FetchOutcome document);
}.

Definition now (w : env) : Z * env := (clock w, w).

Definition uuid (w : env) : string * env :=
  match uuids w with
  | u :: us => (u, mkEnv (clock w) us (replies w))
  | [] => ("00000000-0000-4000-8000-000000000000", w)
  end.

Definition answer (w : env) (rq : FetchRequest) : @FetchOutcome document * env :=
  match replies w with
  | (latency, o) :: rs => (o, mkEnv (clock w + latency) (uuids w) rs)
  | [] => (Rejected, w)
  end.

Definition base : string := "https://api.example.com".

Definition is_uuid (s : string) : bool := (String.length s =? 36)%nat.

Definition credentials (status : Z) (tokens : AuthTokens) : @FetchOutcome document :=
  Resolved (mkResponse status (Some "application/json") "" (Some (Credentials tokens))).

Definition plain (status : Z) (raw : string) : @FetchOutcome document :=
  Resolved (mkResponse status (Some "application/json") raw (Some (Document raw))).

(** An answer whose body is the JSON text [null]. *)
Definition null_body (status : Z) : @FetchOutcome document :=
  Resolved (mkResponse status (Some "application/json") "null" (Some Null)).

Definition exec {R} (p : prog R) (m : Machine) : Outcome R :=
  run now uuid answer p m.

(** An upstream that answers every call with 401. *)
Definition deny (w : env) (rq : FetchRequest) : @FetchOutcome document * env :=
  (plain 401 "denied", w).

(** Sample data: a session that expires at 1 000 000 ms and can be
    refreshed, one that expired at 1 000 ms and cannot, and two sets of
    credentials the upstream may issue. *)
Definition live_row : SessionData :=
  mkSessionData "A0" (Some "R0") 1000000 None None.
Definition stale_row : SessionData :=
  mkSessionData "A0" None 1000 None None.
Definition lapsed_row : SessionData :=
  mkSessionData "A0" (Some "R0") 1000 None None.
Definition issued : AuthTokens := mkAuthTokens "A1" (Some "R1") "Bearer" 3600.
Definition renewed : AuthTokens := mkAuthTokens "A2" None "Bearer" 3600.

(** A request whose only cookie is the session cookie. *)
Definition with_cookie (sessionId : string) : Request :=
  mkRequest (Some {[SESSION_COOKIE := sessionId]}).

Definition resolve (sessionId : string) : prog AuthResult :=
  requireAuth as_tokens json_truthy base (with_cookie sessionId).

Definition forward (session : option SessionData) (sessionId : string)
    : prog HttpReply :=
  proxyRequest as_tokens json_truthy base session sessionId "GET" "/v1/users/me" None.

Definition login : prog HttpReply :=
  login_pincode as_tokens base is_uuid
    (mkLoginPincode "123e4567-e89b-12d3-a456-426614174000" "1234").

(** A validator that accepts every body that is present. *)
Definition zod (schema : Schema) (reqBody : option string) : option string :=
  reqBody.

(** More upstream answers: JSON with a charset parameter, and HTML. *)
Definition json_utf8 (status : Z) (raw : string) : @FetchOutcome document :=
  Resolved (mkResponse status (Some "application/json; charset=utf-8") raw
              (Some (Document raw))).

Definition html (status : Z) (raw : string) : @FetchOutcome document :=
  Resolved (mkResponse status (Some "text/html") raw None).

(** An answer that announces JSON and has no body. *)
Definition no_content (status : Z) : @FetchOutcome document :=
  Resolved (mkResponse status (Some "application/json") "" None).

(** Credentials that live for two minutes, a row that cannot be
    refreshed and expires at 1 000 000 ms, and a request without
    cookies. *)
Definition brief : AuthTokens := mkAuthTokens "A3" (Some "R3") "Bearer" 120.
Definition fixed_row : SessionData :=
  mkSessionData "A0" None 1000000 None None.
Definition anonymous : Request := mkRequest None.

(** An inbound request for ticket 42, with a given body. *)
Definition inbound (req : Request) (reqBody : option string) : Inbound :=
  mkInbound req "42" "" reqBody (mkLoginPincode "" "") "".

(** An inbound request whose id is made of dot segments. *)
Definition dotted (req : Request) : Inbound :=
  mkInbound req "../../legacy" "" None (mkLoginPincode "" "") "".

Definition users_me : Route :=
  mkRoute GET "/api/users/me" true (Proxy "GET" (Fixed "/v1/users/me") NoPayload).
Definition ticket_notes : Route :=
  mkRoute GET "/api/tickets/:id/notes" true
    (Proxy "GET" (ById "/v1/tickets/" "/notes") NoPayload).
Definition post_tickets : Route :=
  mkRoute POST "/api/tickets" true
    (Proxy "POST" (Fixed "/v1/tickets") (Validated createTicketSchema)).
Definition session_query : Route :=
  mkRoute GET "/api/auth/session" false SessionQuery.

Definition handle_route (r : Route) (inb : Inbound) : prog HttpReply :=
  serve as_tokens json_truthy base is_uuid zod r inb.

End Script.

(** * Properties *)

Section Properties.

Context {Json : Type} (as_tokens : Json → AuthTokens).
Context (json_truthy : Json → bool).
Context (API_BASE_URL : string) (is_uuid : string → bool).
Context {W : Type}.
Context (env_now : W → Z * W).
Context (env_uuid : W → string * W).
Context (env_fetch : W → FetchRequest → @FetchOutcome Json * W).

Abbreviation exec := (run env_now env_uuid env_fetch).
Abbreviation start := (advance env_now env_uuid).
Abbreviation resume1 := (resume_task env_now env_uuid env_fetch).
Abbreviation sched := (schedule env_now env_uuid env_fetch).
Abbreviation refresh_of :=
  (refresh_outcome as_tokens json_truthy API_BASE_URL env_now env_uuid env_fetch).
Abbreviation reply_of := (refresh_reply API_BASE_URL env_now env_uuid env_fetch).
Abbreviation refresh_rq := (refresh_request API_BASE_URL).
Abbreviation forward_rq := (forward_request API_BASE_URL).
Abbreviation pincode_rq := (pincode_request API_BASE_URL).

(** Unfold the handlers and the semantics, keeping the refresh exchange
    and the arithmetic folded. *)
Ltac step :=
  cbn -[refreshTokens accepted refresh_outcome refresh_reply refresh_request
        forward_request pincode_request TOKEN_REFRESH_BUFFER_MS
        Z.add Z.mul Z.ltb Z.eqb Z.leb].

(** ** The semantics *)

Lemma run_bind {A B} (p : @prog Json A) (f : A → prog B) m :
  exec (p ≫= f) m =
  let o := exec p m in
  let o' := exec (f (result o)) (final o) in
  mkOutcome (result o') (final o') (calls o ++ calls o').
Proof.
  revert m. induction p as [r | X e k IH | rq k IH]; intros m.
  - cbn. by destruct (exec (f r) m).
  - change (exec (Do e k ≫= f) m) with
      (let '(x, m') := handle env_now env_uuid e m in exec (k x ≫= f) m').
    cbn [run]. destruct (handle env_now env_uuid e m) as [x m']. apply IH.
  - change (exec (Await rq k ≫= f) m) with
      (let '(o, w) := env_fetch (world m) rq in
       let out := exec (k o ≫= f) (mkMachine (sessions m) w) in
       mkOutcome (result out) (final out) (rq :: calls out)).
    cbn [run]. destruct (env_fetch (world m) rq) as [o w].
    cbn zeta. rewrite IH. reflexivity.
Qed.

(** Serving a request alone is starting it and completing its awaited
    calls one after the other. *)
Lemma run_advance {R} (p : @prog Json R) m :
  exec p m =
  match start p m with
  | (Finished r, m') => mkOutcome r m' []
  | (Awaiting rq k, m') =>
      let '(o, w) := env_fetch (world m') rq in
      let out := exec (k o) (mkMachine (sessions m') w) in
      mkOutcome (result out) (final out) (rq :: calls out)
  | (Ready p', m') => exec p' m'
  end.
Proof.
  revert m. induction p as [r | X e k IH | rq k IH]; intros m; cbn.
  - reflexivity.
  - destruct (handle env_now env_uuid e m) as [x m']. apply IH.
  - reflexivity.
Qed.

Lemma truthy_Some (s : string) : s ≠ "" → truthy (Some s) = true.
Proof.
  intros Hs. cbn. destruct (String.eqb_spec s ""); [contradiction | reflexivity].
Qed.

Lemma truthy_inv (v : option string) :
  truthy v = true → ∃ s, v = Some s ∧ s ≠ "".
Proof.
  destruct v as [s|]; cbn; [|discriminate].
  destruct (String.eqb_spec s ""); [discriminate|]. eauto.
Qed.

Lemma exec_refreshTokens refreshToken m :
  exec (refreshTokens API_BASE_URL refreshToken) m =
  mkOutcome (reply_of (world m) refreshToken).1
            (mkMachine (sessions m) (reply_of (world m) refreshToken).2)
            [refresh_rq refreshToken].
Proof.
  unfold refresh_reply, refreshTokens, apiRequest, refresh_request. cbn.
  destruct (env_fetch (world m) _) as [[|response] w]; cbn; [reflexivity|].
  destruct (ok response); reflexivity.
Qed.

(** How the callers of [refreshTokens] see its reply. *)
Lemma accepted_reply w refreshToken :
  accepted as_tokens json_truthy (reply_of w refreshToken).1
  = (refresh_of w refreshToken).1.
Proof. reflexivity. Qed.

Lemma world_reply w refreshToken :
  (reply_of w refreshToken).2 = (refresh_of w refreshToken).2.
Proof. reflexivity. Qed.

(** Run [refreshTokens] and the test its caller makes of the reply. *)
Ltac refresh_exchange :=
  rewrite run_bind, exec_refreshTokens; step;
  rewrite ?accepted_reply, ?world_reply.

(** A refresh exchange gives credentials exactly when the upstream
    answers with a 2xx status and a truthy JSON body. *)
Lemma refresh_of_Some w refreshToken newTokens w' :
  refresh_of w refreshToken = (Some newTokens, w') ↔
  ∃ response j,
    env_fetch w (refresh_rq refreshToken) = (Resolved response, w') ∧
    ok response = true ∧ json response = Some j ∧
    json_truthy j = true ∧ newTokens = as_tokens j.
Proof.
  unfold refresh_outcome, refresh_reply, refreshTokens, apiRequest, fetch,
    refresh_request.
  cbn. destruct (env_fetch w _) as [[|response] w1]; cbn.
  { split; [done|]. by intros (? & ? & [=] & _). }
  destruct (ok response) eqn:Hok; cbn.
  2: { split; [done|]. intros (? & ? & [= <- <-] & Hok' & _). congruence. }
  destruct (json response) as [j|] eqn:Hjson; cbn.
  2: { split; [done|]. intros (? & ? & [= <- <-] & _ & Hjson' & _). congruence. }
  destruct (json_truthy j) eqn:Htruthy; cbn.
  - split.
    + intros [= <- <-]. by exists response, j.
    + intros (? & j' & [= <- <-] & _ & Hjson' & _ & ->).
      rewrite Hjson in Hjson'. by injection Hjson' as ->.
  - split; [done|]. intros (? & j' & [= <- <-] & _ & Hjson' & Htruthy' & _).
    rewrite Hjson in Hjson'. injection Hjson' as ->. congruence.
Qed.

Lemma exec_updateSession sessionId data m :
  exec (updateSession sessionId data) m =
  mkOutcome tt
    (mkMachine
       (match sessions m !! sessionId with
        | Some session => <[sessionId := spread session data]> (sessions m)
        | None => sessions m
        end) (world m)) [].
Proof.
  unfold updateSession. cbn.
  destruct (sessions m !! sessionId); destruct m; reflexivity.
Qed.

(** ** The session store *)

(** C5 (as amended): [session_info] makes no upstream call and touches no
    other session's row; it leaves the store as it is unless the queried
    session's [expires_at] has passed, in which case it deletes that one
    row. *)
Theorem getSessionInfo_frame sessionId m :
  let out := exec (getSessionInfo sessionId) m in
  calls out = [] ∧
  (∀ other, other ≠ sessionId →
     sessions (final out) !! other = sessions m !! other) ∧
  sessions (final out) =
    match sessions m !! sessionId with
    | Some session =>
        if expiresAt session <? (env_now (world m)).1
        then delete sessionId (sessions m) else sessions m
    | None => sessions m
    end.
Proof.
  unfold getSessionInfo. cbn.
  destruct (sessions m !! sessionId) as [session|]; cbn; [|done].
  destruct (env_now (world m)) as [t w]; cbn.
  destruct (expiresAt session <? t); cbn; [|done].
  split_and!; [done | | done].
  intros other Hne. by rewrite lookup_delete_ne.
Qed.

(** C8: logging out never fails: whatever the request and the store, the
    handler makes no upstream call and reports success, and a second
    logout reports success again and changes nothing more.  For the
    session the request presents, the row is absent after the first
    logout and after the second, whether or not it was there before. *)
Theorem logout_idempotent req m :
  let first := exec (logout req) m in
  let second := exec (logout req) (final first) in
  (result first = mkReply 200 JsonSuccess CookieCleared ∧ calls first = []) ∧
  (result second = mkReply 200 JsonSuccess CookieCleared ∧ calls second = []) ∧
  sessions (final second) = sessions (final first) ∧
  ∀ sessionId,
    presents req sessionId →
    sessions (final first) !! sessionId = None ∧
    sessions (final second) !! sessionId = None.
Proof.
  unfold logout, deleteSession.
  destruct (truthy (getSessionId req)) eqn:Htruthy; cbn.
  - split_and!; try done.
    + apply delete_id, lookup_delete_eq.
    + intros sessionId [Hcookie _]. rewrite Hcookie. cbn.
      by rewrite !lookup_delete_eq.
  - split_and!; try done.
    intros sessionId [Hcookie Hne].
    by rewrite Hcookie, (truthy_Some _ Hne) in Htruthy.
Qed.

Lemma exec_requireAuth_refreshed req sessionId session m t1 w1 r newTokens w2 t2 w3 :
  presents req sessionId →
  sessions m !! sessionId = Some session →
  env_now (world m) = (t1, w1) →
  expiresAt session < t1 + TOKEN_REFRESH_BUFFER_MS →
  refreshToken session = Some r → r ≠ "" →
  refresh_of w1 r = (Some newTokens, w2) →
  env_now w2 = (t2, w3) →
  exec (requireAuth as_tokens json_truthy API_BASE_URL req) m =
  mkOutcome (Next (Some (refreshed session newTokens t2)) sessionId)
    (mkMachine (<[sessionId := refreshed session newTokens t2]> (sessions m)) w3)
    [refresh_rq r].
Proof.
  intros [Hcookie Hid] Hrow Hnow Hnear Hr Hne Hrefresh Hnow2.
  unfold requireAuth. rewrite Hcookie, (truthy_Some _ Hid).
  step. rewrite Hrow. step. rewrite Hnow.
  apply Z.ltb_lt in Hnear. rewrite Hnear, Hr, (truthy_Some _ Hne).
  step. refresh_exchange. rewrite Hrefresh. step. rewrite Hnow2. step.
  rewrite Hrow. step.
  rewrite !lookup_insert_eq. unfold refreshed. rewrite Hr. reflexivity.
Qed.

Lemma exec_requireAuth_refresh_failed req sessionId session m t1 w1 r w2 :
  presents req sessionId →
  sessions m !! sessionId = Some session →
  env_now (world m) = (t1, w1) →
  expiresAt session < t1 + TOKEN_REFRESH_BUFFER_MS →
  refreshToken session = Some r → r ≠ "" →
  refresh_of w1 r = (None, w2) →
  exec (requireAuth as_tokens json_truthy API_BASE_URL req) m =
  mkOutcome (Replied session_expired) (mkMachine (sessions m) w2) [refresh_rq r].
Proof.
  intros [Hcookie Hid] Hrow Hnow Hnear Hr Hne Hrefresh.
  unfold requireAuth. rewrite Hcookie, (truthy_Some _ Hid).
  step. rewrite Hrow. step. rewrite Hnow.
  apply Z.ltb_lt in Hnear. rewrite Hnear, Hr, (truthy_Some _ Hne).
  step. refresh_exchange. rewrite Hrefresh. reflexivity.
Qed.

Lemma exec_requireAuth_no_refresh req sessionId session m t1 w1 t2 w2 :
  presents req sessionId →
  sessions m !! sessionId = Some session →
  env_now (world m) = (t1, w1) →
  t1 + TOKEN_REFRESH_BUFFER_MS ≤ expiresAt session
    ∨ truthy (refreshToken session) = false →
  env_now w1 = (t2, w2) →
  exec (requireAuth as_tokens json_truthy API_BASE_URL req) m =
  mkOutcome
    (if expiresAt session <? t2 then Replied session_expired
     else Next (Some session) sessionId)
    (mkMachine (sessions m) w2) [].
Proof.
  intros [Hcookie Hid] Hrow Hnow Hcond Hnow2.
  unfold requireAuth. rewrite Hcookie, (truthy_Some _ Hid).
  step. rewrite Hrow. step. rewrite Hnow.
  assert ((expiresAt session <? t1 + TOKEN_REFRESH_BUFFER_MS)
          && truthy (refreshToken session) = false) as ->.
  { destruct Hcond as [Hfar | ->]; [|apply andb_false_r].
    apply andb_false_intro1, Z.ltb_ge, Hfar. }
  step. rewrite Hnow2. destruct (expiresAt session <? t2); step; [done|].
  by rewrite Hrow.
Qed.

(** When the middleware lets a request through, the session it attaches
    is the row the store then holds, and it made at most one upstream
    call, a refresh. *)
Lemma requireAuth_next req m :
  let out := exec (requireAuth as_tokens json_truthy API_BASE_URL req) m in
  (calls out = [] ∨ ∃ r, calls out = [refresh_rq r]) ∧
  ∀ session sessionId,
    result out = Next session sessionId →
    getSessionId req = Some sessionId ∧
    sessions (final out) !! sessionId = session.
Proof.
  unfold requireAuth.
  destruct (getSessionId req) as [sessionId|] eqn:Hcookie; step.
  2: { split; [by left | discriminate]. }
  destruct (String.eqb sessionId ""); step.
  { split; [by left | discriminate]. }
  destruct (sessions m !! sessionId) as [row|] eqn:Hrow; step.
  2: { split; [by left | discriminate]. }
  destruct (env_now (world m)) as [t1 w1].
  destruct ((expiresAt row <? t1 + TOKEN_REFRESH_BUFFER_MS)
            && truthy (refreshToken row)); step.
  - refresh_exchange.
    destruct (refresh_of w1 _) as [[newTokens|] w2]; step.
    2: { split; [right; eauto | discriminate]. }
    destruct (env_now w2) as [t2 w3]. step. rewrite Hrow. step.
    split; [right; eauto|]. by intros session sid [= <- <-].
  - destruct (env_now w1) as [t2 w2]. destruct (expiresAt row <? t2); step.
    + split; [by left | discriminate].
    + split; [by left|]. by intros session sid [= <- <-].
Qed.

(** ** The proxy dispatcher *)

Lemma exec_proxyRequest_retry session sessionId method apiPath body m
    w1 r newTokens w2 t w3 o w4 :
  refreshToken session = Some r → r ≠ "" →
  answers_401 env_fetch (world m)
    (forward_rq method apiPath body (Some (accessToken session))) w1 →
  refresh_of w1 r = (Some newTokens, w2) →
  env_now w2 = (t, w3) →
  env_fetch w3 (forward_rq method apiPath body (Some (access_token newTokens)))
    = (o, w4) →
  exec (proxyRequest as_tokens json_truthy API_BASE_URL (Some session) sessionId
          method apiPath body) m =
  mkOutcome
    (match o with
     | Rejected => internal_error
     | Resolved response => relay response
     end)
    (mkMachine
       (match sessions m !! sessionId with
        | Some row => <[sessionId := spread row (refresh_data (Some r) newTokens t)]>
                        (sessions m)
        | None => sessions m
        end) w4)
    [forward_rq method apiPath body (Some (accessToken session));
     refresh_rq r;
     forward_rq method apiPath body (Some (access_token newTokens))].
Proof.
  intros Hr Hne (response & Hfirst & H401) Hrefresh Hnow Hsecond.
  unfold proxyRequest, apiRequest, fetch, forward_request in *. step.
  rewrite Hfirst. step. rewrite H401, Z.eqb_refl, Hr, (truthy_Some _ Hne). step.
  refresh_exchange. rewrite Hrefresh. step.
  rewrite Hnow. step.
  destruct (sessions m !! sessionId) as [row|]; step;
    rewrite Hsecond; by destruct o.
Qed.

Lemma exec_proxyRequest_refresh_failed session sessionId method apiPath body m
    w1 r w2 :
  refreshToken session = Some r → r ≠ "" →
  answers_401 env_fetch (world m)
    (forward_rq method apiPath body (Some (accessToken session))) w1 →
  refresh_of w1 r = (None, w2) →
  exec (proxyRequest as_tokens json_truthy API_BASE_URL (Some session) sessionId
          method apiPath body) m =
  mkOutcome session_expired (mkMachine (sessions m) w2)
    [forward_rq method apiPath body (Some (accessToken session)); refresh_rq r].
Proof.
  intros Hr Hne (response & Hfirst & H401) Hrefresh.
  unfold proxyRequest, apiRequest, fetch, forward_request in *. step.
  rewrite Hfirst. step. rewrite H401, Z.eqb_refl, Hr, (truthy_Some _ Hne). step.
  refresh_exchange. by rewrite Hrefresh.
Qed.

Lemma is_refresh_forward method apiPath body accessToken :
  is_refresh (forward_rq method apiPath body accessToken) = false.
Proof. by destruct body. Qed.

Lemma is_refresh_refresh r : is_refresh (refresh_rq r) = true.
Proof. reflexivity. Qed.

(** Whatever the upstream does, one forwarded call makes at most two
    forwarded attempts and at most one refresh exchange. *)
Lemma proxyRequest_calls session sessionId method apiPath body m :
  let out := exec (proxyRequest as_tokens json_truthy API_BASE_URL session sessionId
                     method apiPath body) m in
  ∃ accessToken r newToken,
    calls out = [forward_rq method apiPath body accessToken]
    ∨ calls out = [forward_rq method apiPath body accessToken; refresh_rq r]
    ∨ calls out = [forward_rq method apiPath body accessToken; refresh_rq r;
                   forward_rq method apiPath body newToken].
Proof.
  unfold proxyRequest, apiRequest, fetch. step.
  fold (forward_rq method apiPath body (accessToken <$> session)).
  exists (accessToken <$> session), (default "" (session ≫= refreshToken)).
  destruct (env_fetch (world m) _) as [[|response] w1]; step.
  { exists None. by left. }
  destruct ((status response =? 401) && truthy (session ≫= refreshToken)); step.
  2: { exists None. by left. }
  refresh_exchange.
  destruct (refresh_of w1 _) as [[newTokens|] w2]; step.
  2: { exists None. right. by left. }
  exists (Some (access_token newTokens)). right. right.
  destruct (env_now w2) as [t w3]. step.
  fold (forward_rq method apiPath body (Some (access_token newTokens))).
  destruct (sessions m !! sessionId); step;
    by destruct (env_fetch w3 _) as [[|response2] w4].
Qed.

Lemma calls_count_1 (a : FetchRequest) :
  is_refresh a = false →
  forwarded_calls [a] = 1%nat ∧ refresh_calls [a] = 0%nat.
Proof.
  intros Ha. unfold forwarded_calls, refresh_calls.
  rewrite !filter_cons, !filter_nil, Ha. by repeat case_decide.
Qed.

Lemma calls_count_2 (a b : FetchRequest) :
  is_refresh a = false → is_refresh b = true →
  forwarded_calls [a; b] = 1%nat ∧ refresh_calls [a; b] = 1%nat.
Proof.
  intros Ha Hb. unfold forwarded_calls, refresh_calls.
  rewrite !filter_cons, !filter_nil, Ha, Hb. by repeat case_decide.
Qed.

Lemma calls_count_3 (a b c : FetchRequest) :
  is_refresh a = false → is_refresh b = true → is_refresh c = false →
  forwarded_calls [a; b; c] = 2%nat ∧ refresh_calls [a; b; c] = 1%nat.
Proof.
  intros Ha Hb Hc. unfold forwarded_calls, refresh_calls.
  rewrite !filter_cons, !filter_nil, Ha, Hb, Hc. by repeat case_decide.
Qed.

(** A protected route, middleware included, makes at most two forwarded
    attempts; its refresh exchanges are at most the middleware's one and
    the dispatcher's one. *)
Lemma protected_route_calls req method apiPath body m :
  let out := exec (protected_route as_tokens json_truthy API_BASE_URL req method apiPath body) m in
  (forwarded_calls (calls out) ≤ 2)%nat ∧ (refresh_calls (calls out) ≤ 2)%nat.
Proof.
  unfold protected_route. cbn zeta. rewrite run_bind. cbn zeta. cbn [calls].
  pose proof (requireAuth_next req m) as [Hauth _]. cbn zeta in Hauth.
  unfold forwarded_calls, refresh_calls. rewrite !filter_app, !length_app.
  assert (length (filter (λ rq, is_refresh rq = false)
            (calls (exec (requireAuth as_tokens json_truthy API_BASE_URL req) m))) = 0
          ∧ length (filter (λ rq, is_refresh rq = true)
              (calls (exec (requireAuth as_tokens json_truthy API_BASE_URL req) m))) ≤ 1)%nat
    as [-> Hone].
  { destruct Hauth as [-> | [r ->]]; [cbn; lia|].
    rewrite !filter_cons, !filter_nil. rewrite is_refresh_refresh.
    repeat case_decide; try done; cbn; lia. }
  destruct (result (exec (requireAuth as_tokens json_truthy API_BASE_URL req) m))
    as [reply | session sessionId].
  - cbn. lia.
  - destruct (proxyRequest_calls session sessionId method apiPath body
                (final (exec (requireAuth as_tokens json_truthy API_BASE_URL req) m)))
      as (tok & r & tok' & [H | [H | H]]); rewrite H.
    + destruct (calls_count_1 _ (is_refresh_forward method apiPath body tok))
        as [Hf Hr]. unfold forwarded_calls, refresh_calls in Hf, Hr. lia.
    + destruct (calls_count_2 _ _ (is_refresh_forward method apiPath body tok)
                  (is_refresh_refresh r)) as [Hf Hr].
      unfold forwarded_calls, refresh_calls in Hf, Hr. lia.
    + destruct (calls_count_3 _ _ _ (is_refresh_forward method apiPath body tok)
                  (is_refresh_refresh r)
                  (is_refresh_forward method apiPath body tok')) as [Hf Hr].
      unfold forwarded_calls, refresh_calls in Hf, Hr. lia.
Qed.

(** C2: a forwarded call never makes more than two forwarded attempts
    nor more than one refresh exchange; when the first attempt is
    answered 401, the refresh succeeds and the retry is answered 401
    again, it makes exactly two attempts and one refresh and reports
    NotAuthenticated. *)
Theorem proxyRequest_retry_bound session sessionId method apiPath body m :
  let out := exec (proxyRequest as_tokens json_truthy API_BASE_URL session sessionId
                     method apiPath body) m in
  ((forwarded_calls (calls out) ≤ 2)%nat ∧ (refresh_calls (calls out) ≤ 1)%nat) ∧
  ∀ s r w1 newTokens w2 t w3 w4,
    session = Some s → refreshToken s = Some r → r ≠ "" →
    answers_401 env_fetch (world m)
      (forward_rq method apiPath body (Some (accessToken s))) w1 →
    refresh_of w1 r = (Some newTokens, w2) →
    env_now w2 = (t, w3) →
    answers_401 env_fetch w3
      (forward_rq method apiPath body (Some (access_token newTokens))) w4 →
    result out = session_expired ∧
    calls out = [forward_rq method apiPath body (Some (accessToken s));
                 refresh_rq r;
                 forward_rq method apiPath body (Some (access_token newTokens))] ∧
    forwarded_calls (calls out) = 2%nat ∧
    refresh_calls (calls out) = 1%nat.
Proof.
  intros out. split.
  - destruct (proxyRequest_calls session sessionId method apiPath body m)
      as (tok & r & tok' & [H | [H | H]]); fold out in H; rewrite H.
    + destruct (calls_count_1 _ (is_refresh_forward method apiPath body tok))
        as [-> ->]. lia.
    + destruct (calls_count_2 _ _ (is_refresh_forward method apiPath body tok)
                  (is_refresh_refresh r)) as [-> ->]. lia.
    + destruct (calls_count_3 _ _ _ (is_refresh_forward method apiPath body tok)
                  (is_refresh_refresh r)
                  (is_refresh_forward method apiPath body tok')) as [-> ->]. lia.
  - intros s r w1 newTokens w2 t w3 w4 -> Hr Hne Hfirst Hrefresh Hnow
      (response & Hretry & H401).
    subst out.
    rewrite (exec_proxyRequest_retry _ _ _ _ _ _ _ _ _ _ _ _ _ _
               Hr Hne Hfirst Hrefresh Hnow Hretry).
    cbn [result calls]. unfold relay. rewrite H401, Z.eqb_refl.
    split_and!; [done | done | |];
      apply (calls_count_3 _ _ _ (is_refresh_forward _ _ _ _)
               (is_refresh_refresh r) (is_refresh_forward _ _ _ _)).
Qed.

(** C3 (as amended): when a refresh attempt fails, in [resolve] or in a
    forwarded call, or the retry after a successful refresh is answered
    401 again, NotAuthenticated is reported (401 and the session cookie
    cleared) and the session row stays in the store: untouched after a
    failed refresh, holding the refreshed credentials after a rejected
    retry. *)
Theorem failed_refresh_reports_unauthenticated req sessionId session r m :
  presents req sessionId →
  sessions m !! sessionId = Some session →
  refreshToken session = Some r → r ≠ "" →
  (∀ t1 w1 w2,
     env_now (world m) = (t1, w1) →
     expiresAt session < t1 + TOKEN_REFRESH_BUFFER_MS →
     refresh_of w1 r = (None, w2) →
     let out := exec (requireAuth as_tokens json_truthy API_BASE_URL req) m in
     result out = Replied session_expired ∧ sessions (final out) = sessions m) ∧
  (∀ method apiPath body w1 w2,
     answers_401 env_fetch (world m)
       (forward_rq method apiPath body (Some (accessToken session))) w1 →
     refresh_of w1 r = (None, w2) →
     let out := exec (proxyRequest as_tokens json_truthy API_BASE_URL (Some session) sessionId
                        method apiPath body) m in
     result out = session_expired ∧ sessions (final out) = sessions m) ∧
  (∀ method apiPath body w1 newTokens w2 t w3 w4,
     answers_401 env_fetch (world m)
       (forward_rq method apiPath body (Some (accessToken session))) w1 →
     refresh_of w1 r = (Some newTokens, w2) →
     env_now w2 = (t, w3) →
     answers_401 env_fetch w3
       (forward_rq method apiPath body (Some (access_token newTokens))) w4 →
     let out := exec (proxyRequest as_tokens json_truthy API_BASE_URL (Some session) sessionId
                        method apiPath body) m in
     result out = session_expired ∧
     sessions (final out) !! sessionId = Some (refreshed session newTokens t)).
Proof.
  intros Hid Hrow Hr Hne. split_and!.
  - intros t1 w1 w2 Hnow Hnear Hrefresh.
    by rewrite (exec_requireAuth_refresh_failed _ _ _ _ _ _ _ _
                  Hid Hrow Hnow Hnear Hr Hne Hrefresh).
  - intros method apiPath body w1 w2 Hfirst Hrefresh.
    by rewrite (exec_proxyRequest_refresh_failed _ _ _ _ _ _ _ _ _
                  Hr Hne Hfirst Hrefresh).
  - intros method apiPath body w1 newTokens w2 t w3 w4 Hfirst Hrefresh Hnow
      (response & Hretry & H401).
    rewrite (exec_proxyRequest_retry _ _ _ _ _ _ _ _ _ _ _ _ _ _
               Hr Hne Hfirst Hrefresh Hnow Hretry).
    cbn [result final sessions]. unfold relay. rewrite H401, Z.eqb_refl, Hrow.
    split; [done|]. rewrite lookup_insert_eq. unfold refreshed. by rewrite Hr.
Qed.

(** [resolve] on a session that has expired and has no refresh
    credential: NotAuthenticated, and the store is left as it was. *)
Lemma requireAuth_expired_no_refresh req sessionId session m t1 w1 t2 w2 :
  presents req sessionId →
  sessions m !! sessionId = Some session →
  truthy (refreshToken session) = false →
  env_now (world m) = (t1, w1) →
  env_now w1 = (t2, w2) →
  expiresAt session < t2 →
  exec (requireAuth as_tokens json_truthy API_BASE_URL req) m =
  mkOutcome (Replied session_expired) (mkMachine (sessions m) w2) [].
Proof.
  intros Hid Hrow Hnone Hnow Hnow2 Hexpired.
  rewrite (exec_requireAuth_no_refresh _ _ _ _ _ _ _ _ Hid Hrow Hnow
             (or_intror Hnone) Hnow2).
  apply Z.ltb_lt in Hexpired. by rewrite Hexpired.
Qed.

(** ** Login *)

Lemma exec_createSession tokens user customer m sessionId w1 t w2 :
  env_uuid (world m) = (sessionId, w1) →
  env_now w1 = (t, w2) →
  exec (createSession tokens user customer) m =
  mkOutcome sessionId
    (mkMachine (<[sessionId := created tokens user customer t]> (sessions m)) w2) [].
Proof.
  intros Huuid Hnow. unfold createSession. step.
  rewrite Huuid. step. by rewrite Hnow.
Qed.

Lemma exec_login_pincode reqBody data m response w1 j sessionId w2 t w3 :
  loginPincodeSchema_parse is_uuid reqBody = Some data →
  env_fetch (world m) (pincode_rq data) = (Resolved response, w1) →
  ok response = true → json response = Some j →
  env_uuid w1 = (sessionId, w2) →
  env_now w2 = (t, w3) →
  exec (login_pincode as_tokens API_BASE_URL is_uuid reqBody) m =
  mkOutcome (mkReply 200 JsonSuccess (CookieSet sessionId))
    (mkMachine (<[sessionId := created (as_tokens j) None None t]> (sessions m)) w3)
    [pincode_rq data].
Proof.
  intros Hparse Hfetch Hok Hjson Huuid Hnow.
  unfold login_pincode. rewrite Hparse.
  unfold apiRequest, fetch, pincode_request in *. step.
  rewrite Hfetch. unfold login_exchange. rewrite Hok, Hjson. step.
  rewrite Huuid. step. by rewrite Hnow.
Qed.

(** C7: after a login that the upstream answers with credentials, the
    login reports success and sets the session cookie, and resolving
    that session while it is outside the refresh window yields a session
    holding exactly the issued credentials, without any upstream call. *)
Theorem login_then_resolve reqBody data m response w1 j sessionId w2 t w3 :
  loginPincodeSchema_parse is_uuid reqBody = Some data →
  env_fetch (world m) (pincode_rq data) = (Resolved response, w1) →
  ok response = true → json response = Some j →
  env_uuid w1 = (sessionId, w2) → sessionId ≠ "" →
  env_now w2 = (t, w3) →
  let login := exec (login_pincode as_tokens API_BASE_URL is_uuid reqBody) m in
  result login = mkReply 200 JsonSuccess (CookieSet sessionId) ∧
  ∀ req w t1 w' t2 w'',
    getSessionId req = Some sessionId →
    env_now w = (t1, w') → env_now w' = (t2, w'') →
    t1 + TOKEN_REFRESH_BUFFER_MS ≤ t + expires_in (as_tokens j) * 1000 →
    t2 ≤ t + expires_in (as_tokens j) * 1000 →
    let resolve := exec (requireAuth as_tokens json_truthy API_BASE_URL req)
                     (mkMachine (sessions (final login)) w) in
    ∃ session,
      result resolve = Next (Some session) sessionId ∧
      accessToken session = access_token (as_tokens j) ∧
      refreshToken session = refresh_token (as_tokens j) ∧
      calls resolve = [].
Proof.
  intros Hparse Hfetch Hok Hjson Huuid Hid Hnow login. subst login.
  rewrite (exec_login_pincode _ _ _ _ _ _ _ _ _ _
             Hparse Hfetch Hok Hjson Huuid Hnow).
  split; [done|]. intros req w t1 w' t2 w'' Hcookie Hnow1 Hnow2 Hwindow Hvalid.
  cbn [final sessions].
  set (row := created (as_tokens j) None None t).
  rewrite (exec_requireAuth_no_refresh req sessionId row
             (mkMachine (<[sessionId := row]> (sessions m)) w) t1 w' t2 w'').
  - exists row. cbn [result calls].
    assert ((expiresAt row <? t2) = false) as -> by (apply Z.ltb_ge; exact Hvalid).
    done.
  - split; [exact Hcookie | exact Hid].
  - apply lookup_insert_eq.
  - exact Hnow1.
  - left. exact Hwindow.
  - exact Hnow2.
Qed.

(** C6: the stored [expires_at] is the clock reading at issuance or
    refresh plus the upstream's [expires_in] seconds, in milliseconds:
    for the row a login creates, and for the row a proactive or a
    reactive refresh updates. *)
Theorem expiresAt_from_upstream_lifetime m :
  (∀ response j sessionId w1 t w2,
     ok response = true → json response = Some j →
     env_uuid (world m) = (sessionId, w1) → env_now w1 = (t, w2) →
     let out := exec (login_exchange as_tokens (Resolved response)) m in
     result out = mkReply 200 JsonSuccess (CookieSet sessionId) ∧
     expiresAt <$> sessions (final out) !! sessionId
       = Some (t + expires_in (as_tokens j) * 1000)) ∧
  (∀ req sessionId session r t1 w1 newTokens w2 t2 w3,
     presents req sessionId → sessions m !! sessionId = Some session →
     refreshToken session = Some r → r ≠ "" →
     env_now (world m) = (t1, w1) →
     expiresAt session < t1 + TOKEN_REFRESH_BUFFER_MS →
     refresh_of w1 r = (Some newTokens, w2) → env_now w2 = (t2, w3) →
     let out := exec (requireAuth as_tokens json_truthy API_BASE_URL req) m in
     expiresAt <$> sessions (final out) !! sessionId
       = Some (t2 + expires_in newTokens * 1000)) ∧
  (∀ sessionId session r method apiPath body w1 newTokens w2 t w3 o w4,
     sessions m !! sessionId = Some session →
     refreshToken session = Some r → r ≠ "" →
     answers_401 env_fetch (world m)
       (forward_rq method apiPath body (Some (accessToken session))) w1 →
     refresh_of w1 r = (Some newTokens, w2) → env_now w2 = (t, w3) →
     env_fetch w3 (forward_rq method apiPath body (Some (access_token newTokens)))
       = (o, w4) →
     let out := exec (proxyRequest as_tokens json_truthy API_BASE_URL (Some session) sessionId
                        method apiPath body) m in
     expiresAt <$> sessions (final out) !! sessionId
       = Some (t + expires_in newTokens * 1000)).
Proof.
  split_and!.
  - intros response j sessionId w1 t w2 Hok Hjson Huuid Hnow.
    unfold login_exchange. rewrite Hok, Hjson. step.
    rewrite Huuid. step. rewrite Hnow. step. by rewrite lookup_insert_eq.
  - intros req sessionId session r t1 w1 newTokens w2 t2 w3
      Hid Hrow Hr Hne Hnow Hnear Hrefresh Hnow2.
    rewrite (exec_requireAuth_refreshed _ _ _ _ _ _ _ _ _ _ _
               Hid Hrow Hnow Hnear Hr Hne Hrefresh Hnow2).
    cbn [final sessions]. by rewrite lookup_insert_eq.
  - intros sessionId session r method apiPath body w1 newTokens w2 t w3 o w4
      Hrow Hr Hne Hfirst Hrefresh Hnow Hretry.
    rewrite (exec_proxyRequest_retry _ _ _ _ _ _ _ _ _ _ _ _ _ _
               Hr Hne Hfirst Hrefresh Hnow Hretry).
    cbn [final sessions]. rewrite Hrow. by rewrite lookup_insert_eq.
Qed.

(** A [resolve] suspended at its refresh exchange, and what it does when
    the exchange completes, whatever has become of the store meanwhile:
    it rewrites the row that is then there, with the refresh token it
    sent as the fallback. *)
Lemma requireAuth_suspended req sessionId session r :
  presents req sessionId → refreshToken session = Some r → r ≠ "" →
  ∃ k,
    (∀ m t1 w1,
       sessions m !! sessionId = Some session →
       env_now (world m) = (t1, w1) →
       expiresAt session < t1 + TOKEN_REFRESH_BUFFER_MS →
       start (requireAuth as_tokens json_truthy API_BASE_URL req) m
         = (Awaiting (refresh_rq r) k, mkMachine (sessions m) w1)) ∧
    (∀ m' row' newTokens w2 t2 w3,
       sessions m' !! sessionId = Some row' →
       refresh_of (world m') r = (Some newTokens, w2) →
       env_now w2 = (t2, w3) →
       let row := spread row' (refresh_data (Some r) newTokens t2) in
       resume1 (Awaiting (refresh_rq r) k) m'
         = (Finished (Next (Some row) sessionId),
            mkMachine (<[sessionId := row]> (sessions m')) w3)).
Proof.
  intros [Hcookie Hid] Hr Hne. eexists. split.
  - intros m t1 w1 Hrow Hnow Hnear.
    unfold requireAuth. rewrite Hcookie, (truthy_Some _ Hid).
    step. rewrite Hrow. step. rewrite Hnow.
    apply Z.ltb_lt in Hnear. rewrite Hnear, Hr, (truthy_Some _ Hne).
    unfold refreshTokens, apiRequest, fetch. step. reflexivity.
  - intros m' row' newTokens w2 t2 w3 Hrow Hrefresh Hnow2.
    apply refresh_of_Some in Hrefresh
      as (response & j & Hfetch & Hok & Hjson & Htruthy & ->).
    cbn [resume_task]. fold (refresh_rq r). rewrite Hfetch. step.
    rewrite Hok, Hjson. step. unfold accepted. rewrite Htruthy. step.
    rewrite Hnow2. step. rewrite Hrow. step.
    by rewrite !lookup_insert_eq.
Qed.

(** The same for a forwarded call that was answered 401. *)
Lemma proxyRequest_suspended session sessionId method apiPath body r :
  refreshToken session = Some r → r ≠ "" →
  ∃ k k',
    (∀ m,
       start (proxyRequest as_tokens json_truthy API_BASE_URL (Some session)
                sessionId method apiPath body) m
         = (Awaiting (forward_rq method apiPath body (Some (accessToken session))) k,
            m)) ∧
    (∀ response m,
       status response = 401 →
       start (k (Resolved response)) m = (Awaiting (refresh_rq r) k', m)) ∧
    (∀ m' row' newTokens w2 t w3,
       sessions m' !! sessionId = Some row' →
       refresh_of (world m') r = (Some newTokens, w2) →
       env_now w2 = (t, w3) →
       let row := spread row' (refresh_data (Some r) newTokens t) in
       ∃ k'',
         resume1 (Awaiting (refresh_rq r) k') m'
           = (Awaiting
                (forward_rq method apiPath body (Some (access_token newTokens))) k'',
              mkMachine (<[sessionId := row]> (sessions m')) w3)).
Proof.
  intros Hr Hne. eexists. eexists. split_and!.
  - intros m. unfold proxyRequest, apiRequest, fetch. step. reflexivity.
  - intros response m H401.
    step. rewrite H401, Z.eqb_refl, Hr, (truthy_Some _ Hne).
    unfold refreshTokens, apiRequest, fetch. step. reflexivity.
  - intros m' row' newTokens w2 t w3 Hrow Hrefresh Hnow.
    apply refresh_of_Some in Hrefresh
      as (response & j & Hfetch & Hok & Hjson & Htruthy & ->).
    cbn [resume_task]. fold (refresh_rq r). rewrite Hfetch. step.
    rewrite Hok, Hjson. step. unfold accepted. rewrite Htruthy. step.
    rewrite Hnow. step. rewrite Hrow. step.
    eexists. reflexivity.
Qed.

(** C9 (as amended): a refresh whose response carries no
    [refresh_token] writes back the refresh credential that the request
    itself sent, the one of the session object it read before the
    exchange.  For a request served alone, in [resolve] and in a
    forwarded call alike, that is the row's own credential: it is left
    as it was, and it changes only to a [refresh_token] that the response
    supplies.  When the row was rewritten while the exchange was in
    flight, the credential the row then holds is kept only if it still
    is the one that was sent: a credential that a concurrent refresh
    rotated in is overwritten with the older one. *)
Theorem refresh_falls_back_on_sent_refresh_token req sessionId session r m :
  presents req sessionId →
  sessions m !! sessionId = Some session →
  refreshToken session = Some r → r ≠ "" →
  (∀ t1 w1 newTokens w2 t2 w3,
     env_now (world m) = (t1, w1) →
     expiresAt session < t1 + TOKEN_REFRESH_BUFFER_MS →
     refresh_of w1 r = (Some newTokens, w2) → env_now w2 = (t2, w3) →
     let out := exec (requireAuth as_tokens json_truthy API_BASE_URL req) m in
     ∃ row, sessions (final out) !! sessionId = Some row ∧
       (refresh_token newTokens = None → refreshToken row = refreshToken session) ∧
       (refreshToken row ≠ refreshToken session →
          refresh_token newTokens = refreshToken row)) ∧
  (∀ method apiPath body w1 newTokens w2 t w3 o w4,
     answers_401 env_fetch (world m)
       (forward_rq method apiPath body (Some (accessToken session))) w1 →
     refresh_of w1 r = (Some newTokens, w2) → env_now w2 = (t, w3) →
     env_fetch w3 (forward_rq method apiPath body (Some (access_token newTokens)))
       = (o, w4) →
     let out := exec (proxyRequest as_tokens json_truthy API_BASE_URL (Some session)
                        sessionId method apiPath body) m in
     ∃ row, sessions (final out) !! sessionId = Some row ∧
       (refresh_token newTokens = None → refreshToken row = refreshToken session) ∧
       (refreshToken row ≠ refreshToken session →
          refresh_token newTokens = refreshToken row)) ∧
  (∀ t1 w1,
     env_now (world m) = (t1, w1) →
     expiresAt session < t1 + TOKEN_REFRESH_BUFFER_MS →
     ∃ k,
       start (requireAuth as_tokens json_truthy API_BASE_URL req) m
         = (Awaiting (refresh_rq r) k, mkMachine (sessions m) w1) ∧
       ∀ m' row' newTokens w2 t2 w3,
         sessions m' !! sessionId = Some row' →
         refresh_of (world m') r = (Some newTokens, w2) → env_now w2 = (t2, w3) →
         refresh_token newTokens = None →
         ∃ row,
           sessions (resume1 (Awaiting (refresh_rq r) k) m').2 !! sessionId
             = Some row ∧
           refreshToken row = Some r ∧
           (refreshToken row = refreshToken row' ↔ refreshToken row' = Some r)) ∧
  (∀ method apiPath body,
     ∃ k k',
       (∀ m0,
          start (proxyRequest as_tokens json_truthy API_BASE_URL (Some session)
                   sessionId method apiPath body) m0
            = (Awaiting
                 (forward_rq method apiPath body (Some (accessToken session))) k,
               m0)) ∧
       (∀ response m0,
          status response = 401 →
          start (k (Resolved response)) m0 = (Awaiting (refresh_rq r) k', m0)) ∧
       ∀ m' row' newTokens w2 t w3,
         sessions m' !! sessionId = Some row' →
         refresh_of (world m') r = (Some newTokens, w2) → env_now w2 = (t, w3) →
         refresh_token newTokens = None →
         ∃ row,
           sessions (resume1 (Awaiting (refresh_rq r) k') m').2 !! sessionId
             = Some row ∧
           refreshToken row = Some r ∧
           (refreshToken row = refreshToken row' ↔ refreshToken row' = Some r)).
Proof.
  intros Hid Hrow Hr Hne.
  assert (∀ newTokens t,
    (refresh_token newTokens = None →
       refreshToken (refreshed session newTokens t) = refreshToken session) ∧
    (refreshToken (refreshed session newTokens t) ≠ refreshToken session →
       refresh_token newTokens = refreshToken (refreshed session newTokens t)))
    as Hkeep.
  { intros newTokens t. cbn. unfold js_or.
    destruct (truthy (refresh_token newTokens)) eqn:Htruthy.
    - split; [|done]. intros Hnone. by rewrite Hnone in Htruthy.
    - split; [done|]. intros Hchanged. by destruct Hchanged. }
  assert (∀ (row' : SessionData) newTokens t,
    refresh_token newTokens = None →
    let row := spread row' (refresh_data (Some r) newTokens t) in
    refreshToken row = Some r ∧
    (refreshToken row = refreshToken row' ↔ refreshToken row' = Some r))
    as Hsent.
  { intros row' newTokens t Hnone. cbn. rewrite Hnone. cbn. split; [done|].
    split; intros Heq; by rewrite Heq. }
  split_and!.
  - intros t1 w1 newTokens w2 t2 w3 Hnow Hnear Hrefresh Hnow2.
    rewrite (exec_requireAuth_refreshed _ _ _ _ _ _ _ _ _ _ _
               Hid Hrow Hnow Hnear Hr Hne Hrefresh Hnow2).
    exists (refreshed session newTokens t2). cbn [final sessions].
    rewrite lookup_insert_eq. split; [done | apply Hkeep].
  - intros method apiPath body w1 newTokens w2 t w3 o w4
      Hfirst Hrefresh Hnow Hretry.
    rewrite (exec_proxyRequest_retry _ _ _ _ _ _ _ _ _ _ _ _ _ _
               Hr Hne Hfirst Hrefresh Hnow Hretry).
    exists (refreshed session newTokens t). cbn [final sessions].
    rewrite Hrow, lookup_insert_eq. unfold refreshed. rewrite Hr.
    split; [done|]. rewrite <- Hr. apply Hkeep.
  - intros t1 w1 Hnow Hnear.
    destruct (requireAuth_suspended req sessionId session r Hid Hr Hne)
      as (k & Hstart & Hresume).
    exists k. split; [by apply (Hstart m t1 w1)|].
    intros m' row' newTokens w2 t2 w3 Hrow' Hrefresh Hnow2 Hnone.
    rewrite (Hresume m' row' newTokens w2 t2 w3 Hrow' Hrefresh Hnow2).
    eexists. cbn [snd sessions]. rewrite lookup_insert_eq.
    split; [done | by apply Hsent].
  - intros method apiPath body.
    destruct (proxyRequest_suspended session sessionId method apiPath body r Hr Hne)
      as (k & k' & Hstart & H401 & Hresume).
    exists k, k'. split_and!; [exact Hstart | exact H401 |].
    intros m' row' newTokens w2 t w3 Hrow' Hrefresh Hnow Hnone.
    destruct (Hresume m' row' newTokens w2 t w3 Hrow' Hrefresh Hnow) as [k'' ->].
    eexists. cbn [snd sessions]. rewrite lookup_insert_eq.
    split; [done | by apply Hsent].
Qed.


(** ** Concurrent requests *)

Lemma schedule_app {R} (s : @Server Json W R) (l1 l2 : list nat) :
  sched s (l1 ++ l2) = sched (sched s l1) l2.
Proof. apply foldl_app. Qed.

(** Resuming, one after the other, [n] copies of a task [a]: when a
    machine that satisfies [I (S k)], with [S k] copies still to go,
    takes [a] to a task satisfying [Q] and to a machine satisfying
    [I k], all [n] tasks end up satisfying [Q]. *)
Lemma schedule_replicate {R} (a : @task Json R)
    (Q : task R → Prop) (I : nat → @Machine W → Prop) :
  (∀ k m, I (S k) m → ∃ b m', resume1 a m = (b, m') ∧ Q b ∧ I k m') →
  ∀ n done m, I n m →
    ∃ bs, tasks (sched (mkServer (done ++ replicate n a) m) (seq (length done) n))
            = done ++ bs
          ∧ length bs = n ∧ Forall Q bs
          ∧ I O (machine (sched (mkServer (done ++ replicate n a) m)
                            (seq (length done) n))).
Proof.
  intros Hstep. induction n as [|n IH]; intros done m Hm.
  - exists []. cbn. rewrite app_nil_r. split_and!; [done | done | constructor | done].
  - destruct (Hstep n m Hm) as (b & m' & Hres & Hb & Hm').
    cbn [seq schedule foldl]. unfold resume at 2 4. cbn [tasks machine].
    rewrite lookup_app_r by lia. rewrite Nat.sub_diag. cbn [replicate lookup list_lookup].
    rewrite Hres.
    replace (<[length done := b]> (done ++ a :: replicate n a))
      with ((done ++ [b]) ++ replicate n a).
    2: { rewrite insert_app_r_alt by lia. rewrite Nat.sub_diag. cbn.
         by rewrite <- app_assoc. }
    replace (S (length done)) with (length (done ++ [b]))
      by (rewrite length_app; cbn; lia).
    destruct (IH (done ++ [b]) m' Hm') as (bs & Htasks & Hlen & HQ & HI).
    exists (b :: bs). fold (sched (mkServer ((done ++ [b]) ++ replicate n a) m')
                           (seq (length (done ++ [b])) n)).
    rewrite Htasks, <- app_assoc. split_and!; [done | cbn; lia | by constructor | done].
Qed.

Lemma in_flight_all {R} (bs : list (@task Json R)) (m : @Machine W) :
  Forall (λ t, awaiting_refresh t = true) bs →
  in_flight_refreshes (mkServer bs m) = length bs.
Proof.
  unfold in_flight_refreshes. cbn [tasks].
  induction 1 as [|b bs Hb _ IH]; [done|].
  rewrite filter_cons. case_decide; [|done]. cbn. by rewrite IH.
Qed.

Lemma start_requireAuth_refresh req sessionId session r :
  presents req sessionId → refreshToken session = Some r → r ≠ "" →
  ∃ k, ∀ m t1 w1,
    sessions m !! sessionId = Some session →
    env_now (world m) = (t1, w1) →
    expiresAt session < t1 + TOKEN_REFRESH_BUFFER_MS →
    start (requireAuth as_tokens json_truthy API_BASE_URL req) m
      = (Awaiting (refresh_rq r) k, mkMachine (sessions m) w1).
Proof.
  intros [Hcookie Hid] Hr Hne. eexists. intros m t1 w1 Hrow Hnow Hnear.
  unfold requireAuth. rewrite Hcookie, (truthy_Some _ Hid).
  step. rewrite Hrow. step. rewrite Hnow.
  apply Z.ltb_lt in Hnear. rewrite Hnear, Hr, (truthy_Some _ Hne).
  unfold refreshTokens, apiRequest, fetch. step. reflexivity.
Qed.

Lemma start_proxyRequest session sessionId method apiPath body :
  ∃ k,
    (∀ m, start (proxyRequest as_tokens json_truthy API_BASE_URL (Some session) sessionId
                   method apiPath body) m
          = (Awaiting (forward_rq method apiPath body (Some (accessToken session))) k,
             m)) ∧
    ∀ r, refreshToken session = Some r → r ≠ "" →
      ∃ k', ∀ response m,
        status response = 401 →
        start (k (Resolved response)) m = (Awaiting (refresh_rq r) k', m).
Proof.
  eexists. split.
  - intros m. unfold proxyRequest, apiRequest, fetch. step. reflexivity.
  - intros r Hr Hne. eexists. intros response m H401.
    step. rewrite H401, Z.eqb_refl, Hr, (truthy_Some _ Hne).
    unfold refreshTokens, apiRequest, fetch. step. reflexivity.
Qed.

(** C1 (as amended): the code has no single-flight guard.  Every
    [resolve] call that finds the session inside the refresh window makes
    one refresh exchange of its own, and every forwarded call answered
    401 does too: [n] concurrent [resolve] calls for one session that all
    read the clock inside the window have [n] refresh exchanges in flight
    at once, and so have [n] concurrent forwarded calls that are all
    answered 401. *)
Theorem refresh_is_per_call n req sessionId session r m :
  presents req sessionId →
  sessions m !! sessionId = Some session →
  refreshToken session = Some r → r ≠ "" →
  (∀ t1 w1,
     env_now (world m) = (t1, w1) →
     expiresAt session < t1 + TOKEN_REFRESH_BUFFER_MS →
     refresh_calls
       (calls (exec (requireAuth as_tokens json_truthy API_BASE_URL req) m)) = 1%nat) ∧
  (Forall (λ t, expiresAt session < t + TOKEN_REFRESH_BUFFER_MS)
     (readings env_now n (world m)) →
   in_flight_refreshes
     (sched (mkServer
               (replicate n (Ready (requireAuth as_tokens json_truthy API_BASE_URL req)))
               m)
        (seq 0 n)) = n) ∧
  (∀ method apiPath body,
     (∀ w, ∃ w', answers_401 env_fetch w
                   (forward_rq method apiPath body (Some (accessToken session))) w') →
     in_flight_refreshes
       (sched (mkServer
                 (replicate n (Ready (proxyRequest as_tokens json_truthy API_BASE_URL (Some session)
                                        sessionId method apiPath body)))
                 m)
          (seq 0 n ++ seq 0 n)) = n).
Proof.
  intros Hid Hrow Hr Hne. split_and!.
  - intros t1 w1 Hnow Hnear.
    destruct (refresh_of w1 r) as [[newTokens|] w2] eqn:Hrefresh.
    + destruct (env_now w2) as [t2 w3] eqn:Hnow2.
      by rewrite (exec_requireAuth_refreshed _ _ _ _ _ _ _ _ _ _ _
                    Hid Hrow Hnow Hnear Hr Hne Hrefresh Hnow2).
    + by rewrite (exec_requireAuth_refresh_failed _ _ _ _ _ _ _ _
                    Hid Hrow Hnow Hnear Hr Hne Hrefresh).
  - intros Hnear.
    destruct (start_requireAuth_refresh _ _ _ _ Hid Hr Hne) as [k Hk].
    destruct (schedule_replicate
                (Ready (requireAuth as_tokens json_truthy API_BASE_URL req))
                (λ t, awaiting_refresh t = true)
                (λ left m',
                   sessions m' = sessions m ∧
                   Forall (λ t, expiresAt session < t + TOKEN_REFRESH_BUFFER_MS)
                     (readings env_now left (world m'))))
      with (n := n) (done := @nil (@task Json (@AuthResult Json))) (m := m)
      as (bs & Htasks & Hlen & Hall & _); [|done|].
    { intros left m' [Hm' Hleft]. cbn [readings] in Hleft.
      destruct (env_now (world m')) as [t1 w1] eqn:Hnow.
      apply Forall_cons in Hleft as [Hnear1 Hleft].
      exists (Awaiting (refresh_rq r) k), (mkMachine (sessions m') w1).
      cbn [resume_task]. rewrite (Hk m' t1 w1); [done | by rewrite Hm' | done | done]. }
    cbn [app length] in Htasks.
    destruct (sched _ _) as [ts m'] eqn:Hs. cbn [tasks] in Htasks. subst ts.
    by rewrite in_flight_all.
  - intros method apiPath body H401.
    destruct (start_proxyRequest session sessionId method apiPath body)
      as (k & Hstart & Hk).
    destruct (Hk r Hr Hne) as [k' Hk'].
    set (a := Ready (proxyRequest as_tokens json_truthy API_BASE_URL (Some session) sessionId
                       method apiPath body)).
    set (b := Awaiting (forward_rq method apiPath body (Some (accessToken session))) k).
    rewrite schedule_app.
    destruct (schedule_replicate a (λ t, t = b) (λ _ _, True))
      with (n := n) (done := @nil (@task Json (@HttpReply Json))) (m := m)
      as (bs & Htasks & Hlen & Hall & _); [|done|].
    { intros left m' _. exists b, m'. unfold a. cbn [resume_task]. by rewrite Hstart. }
    cbn [app length] in Htasks.
    destruct (sched (mkServer (replicate n a) m) (seq 0 n)) as [ts m1] eqn:Hs.
    cbn [tasks] in Htasks. subst ts.
    assert (bs = replicate n b) as ->.
    { rewrite <- Hlen. clear -Hall. induction Hall as [|x l -> _ IH]; [done|].
      cbn. by rewrite <- IH. }
    destruct (schedule_replicate b (λ t, awaiting_refresh t = true) (λ _ _, True))
      with (n := n) (done := @nil (@task Json (@HttpReply Json))) (m := m1)
      as (cs & Htasks & Hlen' & Hall' & _); [|done|].
    { intros left m' _.
      destruct (H401 (world m')) as (w' & response & Hfetch & Hstatus).
      eexists _, _. unfold b. cbn [resume_task]. rewrite Hfetch, (Hk' _ _ Hstatus).
      split_and!; done. }
    cbn [app length] in Htasks.
    destruct (sched (mkServer (replicate n b) m1) (seq 0 n)) as [ts m2] eqn:Hs2.
    cbn [tasks] in Htasks. subst ts.
    by rewrite in_flight_all.
Qed.

(** * Further properties of the store, the middleware, the dispatcher
      and the routes *)

Context (zod_parse : Schema → option string → option string).

Abbreviation serve_route := (serve as_tokens json_truthy API_BASE_URL is_uuid zod_parse).

(** ** server/storage.ts *)

(** X1: [createSession] returns the identifier it drew, and reading that
    identifier back gives the row built from the tokens and the clock,
    whatever the store held under it before; no other row changes and no
    upstream call is made. *)
Theorem createSession_getSession tokens user customer m :
  let out := exec (createSession tokens user customer) m in
  let sessionId := (env_uuid (world m)).1 in
  let t := (env_now (env_uuid (world m)).2).1 in
  result out = sessionId ∧
  calls out = [] ∧
  result (exec (getSession sessionId) (final out))
    = Some (created tokens user customer t) ∧
  ∀ other, other ≠ sessionId →
    sessions (final out) !! other = sessions m !! other.
Proof.
  unfold createSession, getSession. step.
  destruct (env_uuid (world m)) as [sessionId w1]. step.
  destruct (env_now w1) as [t w2]. step.
  rewrite lookup_insert_eq. split_and!; try done.
  intros other Hne. by rewrite lookup_insert_ne.
Qed.

(** X2: [updateSession] never creates or removes a row.  On an absent
    identifier it changes nothing, so an update that follows a delete
    leaves the session deleted; on a present one it overrides the keys
    it is given and keeps the others; every other row is untouched. *)
Theorem updateSession_no_upsert sessionId data m :
  let out := exec (updateSession sessionId data) m in
  dom (sessions (final out)) = dom (sessions m) ∧
  (sessions m !! sessionId = None → sessions (final out) = sessions m) ∧
  (∀ session, sessions m !! sessionId = Some session →
     sessions (final out) !! sessionId = Some (spread session data) ∧
     (p_user data = None → user (spread session data) = user session) ∧
     (p_customer data = None → customer (spread session data) = customer session)) ∧
  (∀ other, other ≠ sessionId →
     sessions (final out) !! other = sessions m !! other) ∧
  sessions
    (final (exec (deleteSession sessionId ≫= λ _, updateSession sessionId data) m))
    !! sessionId = None.
Proof.
  cbn zeta. rewrite exec_updateSession. cbn [final sessions].
  split_and!.
  - destruct (sessions m !! sessionId) as [session|] eqn:Hrow; [|done].
    by apply dom_insert_lookup_L.
  - by intros ->.
  - intros session ->. rewrite lookup_insert_eq. split_and!; [done | |].
    + intros Hkey. cbn. by rewrite Hkey.
    + intros Hkey. cbn. by rewrite Hkey.
  - intros other Hne. destruct (sessions m !! sessionId); [|done].
    by rewrite lookup_insert_ne.
  - unfold deleteSession, updateSession. step.
    rewrite lookup_delete_eq. step. by rewrite lookup_delete_eq.
Qed.

(** X3: creating a session under a fresh identifier and deleting it
    again restores the store; deleting an identifier that has no row
    changes nothing. *)
Theorem createSession_deleteSession tokens user customer m :
  sessions m !! (env_uuid (world m)).1 = None →
  sessions
    (final (exec (createSession tokens user customer ≫= deleteSession) m))
    = sessions m ∧
  ∀ absent, sessions m !! absent = None →
    sessions (final (exec (deleteSession absent) m)) = sessions m.
Proof.
  intros Hfresh. split.
  - unfold createSession, deleteSession. step.
    destruct (env_uuid (world m)) as [sessionId w1]. step.
    destruct (env_now w1) as [t w2]. step.
    rewrite delete_insert_eq. by apply delete_id.
  - intros absent Habsent. unfold deleteSession. step. by apply delete_id.
Qed.

(** X4: [getSessionInfo] answers authenticated exactly when the row
    exists and the clock has not passed its [expiresAt] (a session is
    still good at the very instant it expires).  A positive answer
    carries the row's user and customer and leaves the store alone; after
    a negative answer no row is left under that identifier. *)
Theorem getSessionInfo_verdict sessionId m :
  let out := exec (getSessionInfo sessionId) m in
  let now := (env_now (world m)).1 in
  (isAuthenticated (result out) = true ↔
     ∃ session, sessions m !! sessionId = Some session ∧ now ≤ expiresAt session) ∧
  (∀ session,
     sessions m !! sessionId = Some session → now ≤ expiresAt session →
     result out = mkSessionInfo true (user session) (customer session) ∧
     sessions (final out) = sessions m) ∧
  (isAuthenticated (result out) = false →
     result out = mkSessionInfo false None None ∧
     sessions (final out) !! sessionId = None).
Proof.
  unfold getSessionInfo. step.
  destruct (sessions m !! sessionId) as [session|] eqn:Hrow; step.
  2: { split_and!; [|done|done]. split; [done|]. by intros (? & ? & _). }
  destruct (env_now (world m)) as [t w1]. step.
  destruct (Z.ltb_spec (expiresAt session) t) as [Hlt | Hge]; step.
  - split_and!.
    + split; [done|]. intros (? & [= <-] & Hle). lia.
    + intros ? [= <-] Hle. lia.
    + intros _. by rewrite lookup_delete_eq.
  - split_and!.
    + split; [eauto|done].
    + by intros ? [= <-] _.
    + done.
Qed.

(** ** server/routes.ts: requireAuth *)

(** X5: a request without a session cookie (or with an empty one) is
    answered 401 Unauthorized and keeps its cookie; a request whose
    session identifier has no row is answered 401 Session expired and
    the cookie is cleared.  Neither reads the clock, calls the upstream
    or changes the store. *)
Theorem requireAuth_rejects_without_session req m :
  let out := exec (requireAuth as_tokens json_truthy API_BASE_URL req) m in
  (truthy (getSessionId req) = false →
     out = mkOutcome (Replied unauthorized) m []) ∧
  (∀ sessionId,
     presents req sessionId → sessions m !! sessionId = None →
     out = mkOutcome (Replied session_expired) m []).
Proof.
  unfold requireAuth. split.
  - by intros ->.
  - intros sessionId [Hcookie Hid] Hrow.
    rewrite Hcookie, (truthy_Some _ Hid). step. by rewrite Hrow.
Qed.

(** X6: the two thresholds of [requireAuth].  A session without a usable
    refresh credential is let through exactly while the clock has not
    passed [expiresAt] (it still passes at that very millisecond), with
    no upstream call.  A session with a refresh credential is refreshed
    exactly when less than the 300 000 ms buffer remains; with exactly
    300 000 ms left it is let through unrefreshed. *)
Theorem requireAuth_thresholds req sessionId session m t1 w1 t2 w2 :
  presents req sessionId →
  sessions m !! sessionId = Some session →
  env_now (world m) = (t1, w1) →
  env_now w1 = (t2, w2) →
  let out := exec (requireAuth as_tokens json_truthy API_BASE_URL req) m in
  (truthy (refreshToken session) = false →
     calls out = [] ∧ sessions (final out) = sessions m ∧
     (result out = Next (Some session) sessionId ↔ t2 ≤ expiresAt session) ∧
     (result out = Replied session_expired ↔ expiresAt session < t2)) ∧
  (∀ r, refreshToken session = Some r → r ≠ "" →
     (calls out = [refresh_rq r] ↔ expiresAt session - t1 < 300000) ∧
     (calls out = [] ↔ 300000 ≤ expiresAt session - t1) ∧
     (expiresAt session - t1 = 300000 → t2 ≤ expiresAt session →
        result out = Next (Some session) sessionId)).
Proof.
  intros Hid Hrow Hnow Hnow2 out. split.
  - intros Hnone. subst out.
    rewrite (exec_requireAuth_no_refresh _ _ _ _ _ _ _ _ Hid Hrow Hnow
               (or_intror Hnone) Hnow2).
    cbn [result final calls sessions].
    destruct (Z.ltb_spec (expiresAt session) t2) as [Hlt | Hge].
    + split_and!; try done.
      * split; [discriminate | lia].
    + split_and!; try done.
      * split; [discriminate | lia].
  - intros r Hr Hne.
    destruct (Z.lt_ge_cases (expiresAt session) (t1 + TOKEN_REFRESH_BUFFER_MS))
      as [Hnear | Hfar].
    + assert (calls out = [refresh_rq r]) as Hcalls.
      { subst out. destruct (refresh_of w1 r) as [[newTokens|] w3] eqn:Hrefresh.
        - destruct (env_now w3) as [t3 w4] eqn:Hnow3.
          by rewrite (exec_requireAuth_refreshed _ _ _ _ _ _ _ _ _ _ _
                        Hid Hrow Hnow Hnear Hr Hne Hrefresh Hnow3).
        - by rewrite (exec_requireAuth_refresh_failed _ _ _ _ _ _ _ _
                        Hid Hrow Hnow Hnear Hr Hne Hrefresh). }
      unfold TOKEN_REFRESH_BUFFER_MS in Hnear. rewrite Hcalls.
      split_and!; [split; [lia | done] | split; [discriminate | lia] | lia].
    + assert (out = mkOutcome
                (if expiresAt session <? t2 then Replied session_expired
                 else Next (Some session) sessionId)
                (mkMachine (sessions m) w2) []) as ->.
      { subst out. apply exec_requireAuth_no_refresh with (t1 := t1) (w1 := w1);
          try done. by left. }
      unfold TOKEN_REFRESH_BUFFER_MS in Hfar. cbn [calls result].
      split_and!; [split; [discriminate | lia] | split; [lia | done] |].
      intros _ Hvalid.
      by destruct (Z.ltb_spec (expiresAt session) t2) as [Hlt | Hge]; [lia|].
Qed.

(** What a replaced row leaves as it was. *)
Lemma same_or_rewritten_frame sessionId (before after : gmap string SessionData) :
  same_or_rewritten sessionId before after →
  dom after = dom before ∧
  (∀ other, sessionId ≠ Some other → after !! other = before !! other) ∧
  (∀ sid row row',
     before !! sid = Some row → after !! sid = Some row' →
     user row' = user row ∧ customer row' = customer row).
Proof.
  intros [-> | (sid & row & row' & -> & Hrow & -> & Huser & Hcustomer)].
  - split_and!; [done | done |]. by intros ??? -> [= ->].
  - split_and!.
    + apply dom_insert_lookup_L. eauto.
    + intros other Hne. rewrite lookup_insert_ne; [done | congruence].
    + intros sid' before' after' Hbefore.
      destruct (decide (sid' = sid)) as [-> | Hne].
      * rewrite lookup_insert_eq. intros [= <-].
        rewrite Hrow in Hbefore. by injection Hbefore as <-.
      * rewrite lookup_insert_ne by done. rewrite Hbefore. by intros [= <-].
Qed.

Lemma same_or_rewritten_no_identity sessionId (before after : gmap string SessionData) :
  same_or_rewritten sessionId before after →
  no_identity before → no_identity after.
Proof.
  intros Hstore Hnone sid row' Hafter.
  destruct (same_or_rewritten_frame _ _ _ Hstore) as (Hdom & _ & Hkept).
  assert (is_Some (before !! sid)) as [row Hbefore].
  { apply elem_of_dom. rewrite <- Hdom. apply elem_of_dom. eauto. }
  destruct (Hkept sid row row' Hbefore Hafter) as [-> ->].
  by apply (Hnone sid).
Qed.

(** The only change [requireAuth] ever makes to the store: the refresh
    of the presented session's row. *)
Lemma requireAuth_store req m :
  same_or_rewritten (getSessionId req) (sessions m)
    (sessions (final (exec (requireAuth as_tokens json_truthy API_BASE_URL req) m))).
Proof.
  unfold requireAuth.
  destruct (getSessionId req) as [sessionId|] eqn:Hcookie; step; [|by left].
  destruct (String.eqb sessionId ""); step; [by left|].
  destruct (sessions m !! sessionId) as [row|] eqn:Hrow; step; [|by left].
  destruct (env_now (world m)) as [t1 w1].
  destruct ((expiresAt row <? t1 + TOKEN_REFRESH_BUFFER_MS)
            && truthy (refreshToken row)); step.
  - refresh_exchange.
    destruct (refresh_of w1 _) as [[newTokens|] w2]; step; [|by left].
    destruct (env_now w2) as [t2 w3]. step. rewrite Hrow. step.
    right. by eexists sessionId, row, _.
  - destruct (env_now w1) as [t2 w2]. destruct (expiresAt row <? t2); step;
      by left.
Qed.

(** X7: whatever the request and the environment, [requireAuth] neither
    creates nor removes a row, leaves every row other than the presented
    session's as it was, and keeps the user and customer stored with
    every row. *)
Theorem requireAuth_frame req m :
  let out := exec (requireAuth as_tokens json_truthy API_BASE_URL req) m in
  dom (sessions (final out)) = dom (sessions m) ∧
  (∀ other, getSessionId req ≠ Some other →
     sessions (final out) !! other = sessions m !! other) ∧
  (∀ sessionId before after,
     sessions m !! sessionId = Some before →
     sessions (final out) !! sessionId = Some after →
     user after = user before ∧ customer after = customer before).
Proof.
  intros out.
  destruct (same_or_rewritten_frame _ _ _ (requireAuth_store req m))
    as (Hdom & Hothers & Hkept).
  split_and!; [exact Hdom | exact Hothers | exact Hkept].
Qed.

(** X8: a successful proactive refresh is not repeated.  While the
    refreshed lifetime leaves the new [expiresAt] outside the buffer, the
    next [requireAuth] for the same session makes no upstream call,
    changes nothing and passes on the same refreshed session. *)
Theorem requireAuth_refresh_not_repeated req sessionId session r m
    t1 w1 newTokens w2 t2 w3 :
  presents req sessionId →
  sessions m !! sessionId = Some session →
  refreshToken session = Some r → r ≠ "" →
  env_now (world m) = (t1, w1) →
  expiresAt session < t1 + TOKEN_REFRESH_BUFFER_MS →
  refresh_of w1 r = (Some newTokens, w2) →
  env_now w2 = (t2, w3) →
  let first := exec (requireAuth as_tokens json_truthy API_BASE_URL req) m in
  ∀ w t3 w' t4 w'',
    env_now w = (t3, w') → env_now w' = (t4, w'') →
    t3 + TOKEN_REFRESH_BUFFER_MS ≤ t2 + expires_in newTokens * 1000 →
    t4 ≤ t2 + expires_in newTokens * 1000 →
    let second := exec (requireAuth as_tokens json_truthy API_BASE_URL req)
                    (mkMachine (sessions (final first)) w) in
    result second = result first ∧
    calls second = [] ∧
    sessions (final second) = sessions (final first).
Proof.
  intros Hid Hrow Hr Hne Hnow Hnear Hrefresh Hnow2 first.
  intros w t3 w' t4 w'' Hnow3 Hnow4 Hwindow Hvalid. subst first.
  rewrite (exec_requireAuth_refreshed _ _ _ _ _ _ _ _ _ _ _
             Hid Hrow Hnow Hnear Hr Hne Hrefresh Hnow2).
  cbn [result final sessions].
  set (row := refreshed session newTokens t2).
  rewrite (exec_requireAuth_no_refresh req sessionId row
             (mkMachine (<[sessionId := row]> (sessions m)) w) t3 w' t4 w'');
    [| done | apply lookup_insert_eq | done | by left | done].
  cbn [result calls final sessions].
  assert ((expiresAt row <? t4) = false) as -> by (apply Z.ltb_ge; exact Hvalid).
  done.
Qed.

(** X9: credentials that live for less than the 300 s buffer are
    refreshed at every [requireAuth]: a row created from tokens with
    [expires_in] below 300 and a refresh token is inside the window at
    any clock reading that is not before its creation. *)
Theorem requireAuth_short_lived_tokens req sessionId tokens user customer r t m t1 w1 :
  presents req sessionId →
  sessions m !! sessionId = Some (created tokens user customer t) →
  refresh_token tokens = Some r → r ≠ "" →
  expires_in tokens < 300 →
  env_now (world m) = (t1, w1) →
  t ≤ t1 →
  calls (exec (requireAuth as_tokens json_truthy API_BASE_URL req) m) = [refresh_rq r].
Proof.
  intros Hid Hrow Hr Hne Hshort Hnow Hlater.
  assert (expiresAt (created tokens user customer t)
            < t1 + TOKEN_REFRESH_BUFFER_MS) as Hnear.
  { unfold TOKEN_REFRESH_BUFFER_MS. cbn. lia. }
  destruct (refresh_of w1 r) as [[newTokens|] w2] eqn:Hrefresh.
  - destruct (env_now w2) as [t2 w3] eqn:Hnow2.
    by rewrite (exec_requireAuth_refreshed _ _ _ _ _ _ _ _ _ _ _
                  Hid Hrow Hnow Hnear Hr Hne Hrefresh Hnow2).
  - by rewrite (exec_requireAuth_refresh_failed _ _ _ _ _ _ _ _
                  Hid Hrow Hnow Hnear Hr Hne Hrefresh).
Qed.

(** X10: the session query forfeits a refreshable session.  Once
    GET /api/auth/session has seen a session past its [expiresAt], the
    row is gone, and a protected request that follows is answered 401
    without any refresh attempt, whether or not the session held a
    refresh credential. *)
Theorem session_query_forfeits_refresh req sessionId session m t w1 :
  presents req sessionId →
  sessions m !! sessionId = Some session →
  env_now (world m) = (t, w1) →
  expiresAt session < t →
  let out :=
    exec (auth_session req ≫= λ _, requireAuth as_tokens json_truthy API_BASE_URL req) m in
  result out = Replied session_expired ∧
  calls out = [] ∧
  sessions (final out) = delete sessionId (sessions m).
Proof.
  intros [Hcookie Hid] Hrow Hnow Hexpired.
  unfold auth_session, requireAuth, getSessionInfo.
  rewrite Hcookie, (truthy_Some _ Hid). step.
  rewrite Hrow. step. rewrite Hnow.
  apply Z.ltb_lt in Hexpired. rewrite Hexpired. step.
  by rewrite lookup_delete_eq.
Qed.

(** ** server/routes.ts: refreshTokens and proxyRequest *)

Lemma prefix_app (sub post : string) : String.prefix sub (sub +:+ post) = true.
Proof.
  induction sub as [|a sub IH].
  - by destruct ("" +:+ post).
  - change (String a sub +:+ post) with (String a (sub +:+ post)). cbn.
    destruct (Ascii.ascii_dec a a); [exact IH | contradiction].
Qed.

(** [includes] finds every occurrence: a string that has [sub] anywhere
    inside includes it. *)
Lemma includes_infix (sub pre post : string) :
  includes sub (pre +:+ sub +:+ post) = true.
Proof.
  induction pre as [|a pre IH].
  - change ("" +:+ sub +:+ post) with (sub +:+ post).
    assert (String.prefix sub (sub +:+ post) = true) as Hprefix
      by apply prefix_app.
    destruct (sub +:+ post); cbn [includes]; by rewrite Hprefix.
  - change (String a pre +:+ sub +:+ post) with (String a (pre +:+ sub +:+ post)).
    cbn [includes]. rewrite IH. apply orb_true_r.
Qed.

(** X11: [refreshTokens] makes exactly one upstream call, an
    unauthenticated POST of the refresh token to the refresh endpoint,
    and never touches the store.  It returns the parsed body, as it is,
    exactly when that call resolves with a status from 200 to 299 and a
    body that parses; a rejected call, any other status and an
    unreadable body all yield [null].  Its callers take the value for
    new credentials exactly when it is moreover truthy: a 2xx answer
    whose body is JSON [null], [false], [0] or [""] is a failed
    refresh. *)
Theorem refreshTokens_contract refreshToken m :
  let out := exec (refreshTokens API_BASE_URL refreshToken) m in
  calls out =
    [ {| url := API_BASE_URL +:+ "/v1/authenticate/refresh";
         method := "POST";
         authorization := None;
         body := RefreshBody refreshToken |} ] ∧
  sessions (final out) = sessions m ∧
  (∀ j,
     result out = Some j ↔
     ∃ response w,
       env_fetch (world m) (refresh_rq refreshToken) = (Resolved response, w) ∧
       200 ≤ status response ≤ 299 ∧
       json response = Some j) ∧
  (∀ newTokens,
     accepted as_tokens json_truthy (result out) = Some newTokens ↔
     ∃ response w j,
       env_fetch (world m) (refresh_rq refreshToken) = (Resolved response, w) ∧
       200 ≤ status response ≤ 299 ∧
       json response = Some j ∧ json_truthy j = true ∧ newTokens = as_tokens j) ∧
  (∀ response w j,
     env_fetch (world m) (refresh_rq refreshToken) = (Resolved response, w) →
     json response = Some j → json_truthy j = false →
     accepted as_tokens json_truthy (result out) = None).
Proof.
  unfold refreshTokens, apiRequest, fetch. step.
  fold (refresh_rq refreshToken).
  destruct (env_fetch (world m) (refresh_rq refreshToken)) as [[|response] w];
    step.
  { split_and!; [done | done | | |].
    - intros j. split; [done|]. by intros (? & ? & [=] & _).
    - intros newTokens. split; [done|]. by intros (? & ? & ? & [=] & _).
    - by intros ? ? ? [=]. }
  unfold ok.
  destruct (Z.leb_spec 200 (status response)) as [Hlo | Hlo];
    destruct (Z.leb_spec (status response) 299) as [Hhi | Hhi]; step.
  1: { split_and!; [done | done | | |].
       - intros j. split.
         + intros Hjson. exists response, w. split_and!; try done; lia.
         + intros (? & ? & Heq & _ & Hjson). by injection Heq as <- <-.
       - intros newTokens. unfold accepted.
         destruct (json response) as [j|] eqn:Hjson.
         2: { split; [done|]. intros (? & ? & ? & Heq & _ & Hjson' & _).
              injection Heq as <- <-. congruence. }
         destruct (json_truthy j) eqn:Htruthy.
         + split.
           * intros [= <-]. exists response, w, j. split_and!; try done; lia.
           * intros (? & ? & j' & Heq & _ & Hjson' & _ & ->).
             injection Heq as <- <-. congruence.
         + split; [done|].
           intros (? & ? & j' & Heq & _ & Hjson' & Htruthy' & _).
           injection Heq as <- <-. congruence.
       - intros ? ? j [= <- <-] Hjson Hfalsy. unfold accepted.
         by rewrite Hjson, Hfalsy. }
  all: split_and!; [done | done | | | done];
    [ intros j; split; [done|]; intros (? & ? & [= <- <-] & Hrange & _); lia
    | intros newTokens; split; [done|];
      intros (? & ? & ? & [= <- <-] & Hrange & _); lia ].
Qed.

(** X12: an upstream answer other than 401 is relayed: one upstream
    call, the store and the cookie untouched.  When the content type
    contains "application/json" (parameters such as a charset do not
    matter) the body is parsed and relayed as JSON under the upstream's
    status, and when it cannot be parsed (an empty body, as with a 204)
    the reply is 500 Internal server error.  When the content type is
    absent or different the body is relayed as text under the upstream's
    status.  So the upstream's status is kept in every case but that of
    a JSON body that cannot be parsed. *)
Theorem proxyRequest_relays session sessionId method apiPath body m response w1 :
  env_fetch (world m)
    (forward_rq method apiPath body (accessToken <$> session))
    = (Resolved response, w1) →
  status response ≠ 401 →
  let out := exec (proxyRequest as_tokens json_truthy API_BASE_URL session sessionId
                     method apiPath body) m in
  let parsed :=
    match json response with
    | Some data => mkReply (status response) (JsonRelay data) CookieUntouched
    | None => internal_error
    end in
  calls out = [forward_rq method apiPath body (accessToken <$> session)] ∧
  sessions (final out) = sessions m ∧
  reply_cookie (result out) = CookieUntouched ∧
  (∀ ct, content_type response = Some ct →
     includes "application/json" ct = true → result out = parsed) ∧
  (∀ pre post,
     content_type response = Some (pre +:+ "application/json" +:+ post) →
     result out = parsed) ∧
  (content_type response = None
   ∨ (∃ ct, content_type response = Some ct
            ∧ includes "application/json" ct = false) →
   result out = mkReply (status response) (TextRelay (text response)) CookieUntouched) ∧
  (reply_status (result out) = status response
   ∨ (result out = internal_error ∧ json response = None ∧
      ∃ ct, content_type response = Some ct
            ∧ includes "application/json" ct = true)).
Proof.
  intros Hfetch Hstatus.
  unfold proxyRequest, apiRequest, fetch, forward_request in *. step.
  rewrite Hfetch. step.
  apply Z.eqb_neq in Hstatus. rewrite Hstatus. step.
  unfold relay. rewrite Hstatus.
  split_and!; [done | done | | | | |].
  - destruct (default false _); [|done]. by destruct (json response).
  - intros ct -> Hct. cbn [fmap option_fmap option_map default]. by rewrite Hct.
  - intros pre post ->. cbn [fmap option_fmap option_map default].
    by rewrite (includes_infix "application/json" pre post).
  - intros [-> | (ct & -> & Hct)]; [done|].
    cbn [fmap option_fmap option_map default]. by rewrite Hct.
  - destruct (content_type response) as [ct|]; [|by left].
    cbn [fmap option_fmap option_map default].
    destruct (includes "application/json" ct) eqn:Hct; [|by left].
    destruct (json response); [by left|]. right. split_and!; [done | done |].
    by exists ct.
Qed.

(** X13: a 401 for a session that has no usable refresh credential (or
    for a request that carries no session) ends the session on the
    client at once: one upstream call, no refresh attempt, 401 with the
    cookie cleared, and the store unchanged. *)
Theorem proxyRequest_401_without_refresh session sessionId method apiPath body m w1 :
  truthy (session ≫= refreshToken) = false →
  answers_401 env_fetch (world m)
    (forward_rq method apiPath body (accessToken <$> session)) w1 →
  exec (proxyRequest as_tokens json_truthy API_BASE_URL session sessionId
          method apiPath body) m
  = mkOutcome session_expired (mkMachine (sessions m) w1)
      [forward_rq method apiPath body (accessToken <$> session)].
Proof.
  intros Hnone (response & Hfetch & H401).
  unfold proxyRequest, apiRequest, fetch, forward_request in *. step.
  rewrite Hfetch. step. rewrite Hnone, andb_false_r. step.
  unfold relay. by rewrite H401, Z.eqb_refl.
Qed.

(** X14: an upstream that cannot be reached costs the session nothing.
    When the forwarded call is rejected the reply is 500, the cookie is
    kept and the store is unchanged; when the retry after a successful
    refresh is rejected the reply is 500 as well, and the row keeps the
    refreshed credentials. *)
Theorem proxyRequest_upstream_unavailable session sessionId method apiPath body m :
  (∀ w1,
     env_fetch (world m)
       (forward_rq method apiPath body (accessToken <$> session)) = (Rejected, w1) →
     exec (proxyRequest as_tokens json_truthy API_BASE_URL session sessionId
             method apiPath body) m
     = mkOutcome internal_error (mkMachine (sessions m) w1)
         [forward_rq method apiPath body (accessToken <$> session)]) ∧
  (∀ s r row w1 newTokens w2 t w3 w4,
     session = Some s → refreshToken s = Some r → r ≠ "" →
     sessions m !! sessionId = Some row →
     answers_401 env_fetch (world m)
       (forward_rq method apiPath body (Some (accessToken s))) w1 →
     refresh_of w1 r = (Some newTokens, w2) →
     env_now w2 = (t, w3) →
     env_fetch w3 (forward_rq method apiPath body (Some (access_token newTokens)))
       = (Rejected, w4) →
     let out := exec (proxyRequest as_tokens json_truthy API_BASE_URL session sessionId
                        method apiPath body) m in
     result out = internal_error ∧
     ∃ after, sessions (final out) !! sessionId = Some after ∧
       accessToken after = access_token newTokens ∧
       expiresAt after = t + expires_in newTokens * 1000).
Proof.
  split.
  - intros w1 Hfetch.
    unfold proxyRequest, apiRequest, fetch, forward_request in *. step.
    by rewrite Hfetch.
  - intros s r row w1 newTokens w2 t w3 w4 -> Hr Hne Hrow Hfirst Hrefresh Hnow Hretry.
    rewrite (exec_proxyRequest_retry _ _ _ _ _ _ _ _ _ _ _ _ _ _
               Hr Hne Hfirst Hrefresh Hnow Hretry).
    cbn [result final sessions]. rewrite Hrow. split; [done|].
    eexists. rewrite lookup_insert_eq. split; [done|]. done.
Qed.

(** The only change [proxyRequest] ever makes to the store: the refresh
    of the row of [req.sessionId]. *)
Lemma proxyRequest_store session sessionId method apiPath body m :
  same_or_rewritten (Some sessionId) (sessions m)
    (sessions (final (exec (proxyRequest as_tokens json_truthy API_BASE_URL session sessionId
                              method apiPath body) m))).
Proof.
  unfold proxyRequest, apiRequest, fetch. step.
  destruct (env_fetch (world m) _) as [[|response] w1]; step; [by left|].
  destruct ((status response =? 401) && truthy (session ≫= refreshToken)); step;
    [|by left].
  refresh_exchange.
  destruct (refresh_of w1 _) as [[newTokens|] w2]; step; [|by left].
  destruct (env_now w2) as [t w3]. step.
  destruct (sessions m !! sessionId) as [row|] eqn:Hrow; step.
  - destruct (env_fetch w3 _) as [[|response2] w4]; step;
      right; by eexists sessionId, row, _.
  - destruct (env_fetch w3 _) as [[|response2] w4]; by left.
Qed.

(** X15: whatever the upstream does, [proxyRequest] neither creates nor
    removes a row, leaves every row other than [req.sessionId]'s as it
    was, and keeps the user and customer stored with every row. *)
Theorem proxyRequest_frame session sessionId method apiPath body m :
  let out := exec (proxyRequest as_tokens json_truthy API_BASE_URL session sessionId
                     method apiPath body) m in
  dom (sessions (final out)) = dom (sessions m) ∧
  (∀ other, other ≠ sessionId →
     sessions (final out) !! other = sessions m !! other) ∧
  (∀ sid before after,
     sessions m !! sid = Some before →
     sessions (final out) !! sid = Some after →
     user after = user before ∧ customer after = customer before).
Proof.
  intros out.
  destruct (same_or_rewritten_frame _ _ _
              (proxyRequest_store session sessionId method apiPath body m))
    as (Hdom & Hothers & Hkept).
  split_and!; [exact Hdom | | exact Hkept].
  intros other Hne. apply Hothers. congruence.
Qed.

(** X16: the middleware and the dispatcher compose on the fresh token.
    When [requireAuth] refreshes the session on the way in, the
    forwarded call already carries the new access token, and an answer
    other than 401 is relayed: the request costs one refresh and one
    forwarded call. *)
Theorem protected_route_uses_fresh_token req sessionId session r method apiPath body m
    t1 w1 newTokens w2 t2 w3 response w4 :
  presents req sessionId →
  sessions m !! sessionId = Some session →
  refreshToken session = Some r → r ≠ "" →
  env_now (world m) = (t1, w1) →
  expiresAt session < t1 + TOKEN_REFRESH_BUFFER_MS →
  refresh_of w1 r = (Some newTokens, w2) →
  env_now w2 = (t2, w3) →
  env_fetch w3 (forward_rq method apiPath body (Some (access_token newTokens)))
    = (Resolved response, w4) →
  status response ≠ 401 →
  let out := exec (protected_route as_tokens json_truthy API_BASE_URL req method apiPath body) m in
  calls out = [refresh_rq r;
               forward_rq method apiPath body (Some (access_token newTokens))] ∧
  result out = relay response ∧
  sessions (final out) !! sessionId = Some (refreshed session newTokens t2).
Proof.
  intros Hid Hrow Hr Hne Hnow Hnear Hrefresh Hnow2 Hfetch Hstatus.
  unfold protected_route. cbn zeta. rewrite run_bind.
  rewrite (exec_requireAuth_refreshed _ _ _ _ _ _ _ _ _ _ _
             Hid Hrow Hnow Hnear Hr Hne Hrefresh Hnow2).
  cbn [result final calls]. cbn zeta.
  unfold proxyRequest, apiRequest, fetch, forward_request in *. step.
  rewrite Hfetch. step.
  apply Z.eqb_neq in Hstatus. rewrite Hstatus. step.
  by rewrite lookup_insert_eq.
Qed.

(** ** server/routes.ts: the login routes *)

Abbreviation otp_rq otp :=
  (request_of API_BASE_URL "/v1/authenticate/otp"
     {| init_method := "POST"; init_body := OtpBody otp |} None).

(** What both login routes do with the upstream's answer: a session and
    a cookie, or neither. *)
Lemma login_exchange_store r m :
  let out := exec (login_exchange as_tokens r) m in
  calls out = [] ∧
  ((∃ sessionId row,
      result out = mkReply 200 JsonSuccess (CookieSet sessionId) ∧
      sessions (final out) = <[sessionId := row]> (sessions m) ∧
      user row = None ∧ customer row = None)
   ∨ (reply_cookie (result out) = CookieUntouched ∧
      reply_body (result out) ≠ JsonSuccess ∧
      sessions (final out) = sessions m)).
Proof.
  unfold login_exchange. destruct r as [|response]; step.
  { split; [done|]. by right. }
  destruct (ok response); step.
  2: { split; [done|]. right. by destruct (json response). }
  destruct (json response) as [j|]; step.
  2: { split; [done|]. by right. }
  destruct (env_uuid (world m)) as [sessionId w1]. step.
  destruct (env_now w1) as [t w2]. step.
  split; [done|]. left. by eexists sessionId, _.
Qed.

(** X17: a login creates a session exactly when it sets the cookie.
    Either the reply is 200 [{success: true}] with the cookie set to a
    new identifier whose row is in the store, or the cookie is left
    alone, the reply is not the success reply and the store is unchanged.
    Either way at most one upstream call is made, and the stored row
    carries no user and no customer: the login never captures an
    identity. *)
Theorem login_session_iff_cookie m :
  (∀ reqBody,
     let out := exec (login_pincode as_tokens API_BASE_URL is_uuid reqBody) m in
     (length (calls out) ≤ 1)%nat ∧
     ((∃ sessionId row,
         result out = mkReply 200 JsonSuccess (CookieSet sessionId) ∧
         sessions (final out) = <[sessionId := row]> (sessions m) ∧
         user row = None ∧ customer row = None)
      ∨ (reply_cookie (result out) = CookieUntouched ∧
         reply_body (result out) ≠ JsonSuccess ∧
         sessions (final out) = sessions m))) ∧
  (∀ reqBody,
     let out := exec (login_otp as_tokens API_BASE_URL reqBody) m in
     (length (calls out) ≤ 1)%nat ∧
     ((∃ sessionId row,
         result out = mkReply 200 JsonSuccess (CookieSet sessionId) ∧
         sessions (final out) = <[sessionId := row]> (sessions m) ∧
         user row = None ∧ customer row = None)
      ∨ (reply_cookie (result out) = CookieUntouched ∧
         reply_body (result out) ≠ JsonSuccess ∧
         sessions (final out) = sessions m))).
Proof.
  split; intros reqBody.
  - unfold login_pincode.
    destruct (loginPincodeSchema_parse is_uuid reqBody) as [data|].
    2: { step. split; [lia|]. by right. }
    unfold apiRequest, fetch. cbn zeta. rewrite run_bind. cbn [run].
    destruct (env_fetch (world m) _) as [r w1]. cbn zeta. cbn [result final calls].
    destruct (login_exchange_store r (mkMachine (sessions m) w1)) as [-> Hstore].
    split; [cbn; lia | exact Hstore].
  - unfold login_otp.
    destruct (loginOtpSchema_parse reqBody) as [data|].
    2: { step. split; [lia|]. by right. }
    unfold apiRequest, fetch. cbn zeta. rewrite run_bind. cbn [run].
    destruct (env_fetch (world m) _) as [r w1]. cbn zeta. cbn [result final calls].
    destruct (login_exchange_store r (mkMachine (sessions m) w1)) as [-> Hstore].
    split; [cbn; lia | exact Hstore].
Qed.

(** X18: a malformed login never reaches the upstream.  A pincode login
    whose connector id is not a UUID or whose pincode has fewer than 4
    characters, and an OTP login whose code has fewer than 6, are
    answered 400 with no upstream call and nothing changed. *)
Theorem login_rejects_malformed_payload m :
  (∀ reqBody,
     is_uuid (connector_uuid reqBody) = false
     ∨ (String.length (pincode reqBody) < 4)%nat →
     exec (login_pincode as_tokens API_BASE_URL is_uuid reqBody) m
     = mkOutcome invalid_request m []) ∧
  (∀ otp,
     (String.length otp < 6)%nat →
     exec (login_otp as_tokens API_BASE_URL otp) m
     = mkOutcome invalid_request m []).
Proof.
  split.
  - intros reqBody Hbad. unfold login_pincode, loginPincodeSchema_parse.
    assert (is_uuid (connector_uuid reqBody)
            && (4 <=? String.length (pincode reqBody))%nat = false) as ->; [|done].
    destruct Hbad as [-> | Hshort]; [done|].
    apply andb_false_intro2, Nat.leb_gt, Hshort.
  - intros otp Hshort. unfold login_otp, loginOtpSchema_parse.
    assert ((6 <=? String.length otp)%nat = false) as -> by by apply Nat.leb_gt.
    done.
Qed.

(** X19: the forgot-password route never touches the store or the
    cookie and makes at most one upstream call, without credentials.  A
    body that fails validation is answered 400 with no upstream call,
    and the success reply is sent exactly when the upstream answers with
    a 2xx status. *)
Theorem forgot_password_frame reqBody m :
  let out := exec (forgot_password API_BASE_URL zod_parse reqBody) m in
  sessions (final out) = sessions m ∧
  reply_cookie (result out) = CookieUntouched ∧
  (length (calls out) ≤ 1)%nat ∧
  Forall (λ rq, authorization rq = None) (calls out) ∧
  (zod_parse forgotPasswordSchema reqBody = None →
     out = mkOutcome invalid_request m []) ∧
  (reply_body (result out) = JsonSuccess ↔
     ∃ data response w,
       zod_parse forgotPasswordSchema reqBody = Some data ∧
       env_fetch (world m)
         (request_of API_BASE_URL
            "/legacy/api/mobile/authentication/authenticate/forgot-password"
            {| init_method := "POST"; init_body := OpaqueBody data |} None)
         = (Resolved response, w) ∧
       ok response = true).
Proof.
  unfold forgot_password.
  destruct (zod_parse forgotPasswordSchema reqBody) as [data|]; step.
  2: { split_and!; [done | done | lia | constructor | done |].
       split; [done|]. by intros (? & ? & ? & [=] & _). }
  unfold apiRequest, fetch. step.
  destruct (env_fetch (world m) _) as [[|response] w1] eqn:Hfetch; step.
  { split_and!; [done | done | lia | by repeat constructor | done |].
    split; [done|]. intros (? & ? & ? & [= <-] & Hfetch' & _). congruence. }
  destruct (ok response) eqn:Hok; step.
  - split_and!; [done | done | lia | by repeat constructor | done |].
    split; [|done]. intros _. by exists data, response, w1.
  - split_and!; [done | done | lia | by repeat constructor | done |].
    split.
    + by destruct (json response).
    + intros (? & ? & ? & [= <-] & Hfetch' & Hok'). congruence.
Qed.

(** ** server/routes.ts: the table of routes *)

Lemma routes_guarded r :
  r ∈ routes → String.prefix "/api/auth/" (pattern r) = false →
  middleware r = true.
Proof.
  intros Hin. revert r Hin.
  apply (Forall_forall
           (λ r, String.prefix "/api/auth/" (pattern r) = false → middleware r = true)).
  unfold routes.
  repeat (apply Forall_cons; split;
          [ intros Hprefix; first [reflexivity | vm_compute in Hprefix; discriminate] |]).
  constructor.
Qed.

Lemma routes_targets r :
  r ∈ routes → middleware r = true →
  ∃ method target payload,
    handler r = Proxy method target payload ∧
    method = verb_name (verb r) ∧
    String.prefix "/v1/" (target_prefix target) = true.
Proof.
  intros Hin. revert r Hin.
  apply (Forall_forall
           (λ r, middleware r = true →
                 ∃ method target payload,
                   handler r = Proxy method target payload ∧
                   method = verb_name (verb r) ∧
                   String.prefix "/v1/" (target_prefix target) = true)).
  unfold routes.
  repeat (apply Forall_cons; split;
          [ intros Hguard;
            first [ discriminate Hguard
                  | eexists _, _, _; split_and!; reflexivity ] |]).
  constructor.
Qed.

(** X20: every route outside /api/auth/ is behind the middleware.  A
    request without a session cookie is answered 401 Unauthorized, one
    whose session identifier has no row is answered 401 Session expired;
    either way no upstream call is made and nothing changes, whatever
    the route, its parameters and its body. *)
Theorem data_routes_require_session r inb m :
  r ∈ routes →
  String.prefix "/api/auth/" (pattern r) = false →
  let out := exec (serve_route r inb) m in
  (truthy (getSessionId (in_req inb)) = false →
     out = mkOutcome unauthorized m []) ∧
  (∀ sessionId,
     presents (in_req inb) sessionId → sessions m !! sessionId = None →
     out = mkOutcome session_expired m []).
Proof.
  intros Hin Hdata. unfold serve. rewrite (routes_guarded r Hin Hdata).
  unfold requireAuth. split.
  - by intros ->.
  - intros sessionId [Hcookie Hid] Hrow.
    rewrite Hcookie, (truthy_Some _ Hid). step. by rewrite Hrow.
Qed.

(** X21: on a validated route, authentication comes before validation
    and validation before the upstream.  With a body that fails the
    schema the route ends as the middleware left things: its rejection
    if it rejected, 400 Invalid request if it let the request through;
    the forwarded call is never made, though the middleware may already
    have refreshed the session. *)
Theorem validated_route_invalid_body r method target schema inb m :
  middleware r = true →
  handler r = Proxy method target (Validated schema) →
  zod_parse schema (in_body inb) = None →
  let auth := exec (requireAuth as_tokens json_truthy API_BASE_URL (in_req inb)) m in
  let out := exec (serve_route r inb) m in
  result out =
    match result auth with
    | Replied reply => reply
    | Next _ _ => invalid_request
    end ∧
  calls out = calls auth ∧
  final out = final auth ∧
  forwarded_calls (calls out) = 0%nat.
Proof.
  intros Hguard Hhandler Hinvalid. unfold serve. rewrite Hguard, Hhandler.
  cbn zeta. rewrite run_bind. cbn zeta.
  assert (forwarded_calls
            (calls (exec (requireAuth as_tokens json_truthy API_BASE_URL (in_req inb)) m))
          = 0%nat) as Hnone.
  { destruct (requireAuth_next (in_req inb) m) as [[-> | [r' ->]] _]; [done|].
    unfold forwarded_calls. rewrite filter_cons, filter_nil.
    rewrite is_refresh_refresh. by case_decide. }
  destruct (result (exec (requireAuth as_tokens json_truthy API_BASE_URL (in_req inb)) m))
    as [reply | session sessionId].
  - cbn. by rewrite app_nil_r.
  - cbn [run_handler proxy_handler]. rewrite Hinvalid. cbn.
    by rewrite app_nil_r.
Qed.

Lemma append_assoc (a b c : string) : (a +:+ b) +:+ c = a +:+ (b +:+ c).
Proof.
  induction a as [|x a IH]; [done|].
  change ((String x a +:+ b) +:+ c) with (String x ((a +:+ b) +:+ c)).
  by rewrite IH.
Qed.

Lemma prefix_inv (a b : string) :
  String.prefix a b = true → ∃ rest, b = a +:+ rest.
Proof.
  revert b. induction a as [|x a IH]; intros b.
  - intros _. by exists b.
  - destruct b as [|y b]; cbn; [done|].
    destruct (Ascii.ascii_dec x y) as [<- | ]; [|done].
    intros Hprefix. destruct (IH b Hprefix) as [rest ->]. by exists rest.
Qed.

Lemma apiPath_of_prefix target inb :
  String.prefix "/v1/" (target_prefix target) = true →
  ∃ rest, apiPath_of target inb = "/v1/" +:+ rest.
Proof.
  intros Hprefix. apply prefix_inv in Hprefix as [rest Hrest].
  destruct target as [apiPath | prefix suffix | apiPath];
    cbn [target_prefix apiPath_of] in *; subst.
  - by exists rest.
  - eexists. apply append_assoc.
  - eexists. apply append_assoc.
Qed.

(** X22: every upstream call of a data route is built from the route's
    registration.  While a route behind the middleware is served, a
    refresh exchange is an unauthenticated POST to [API_BASE_URL]
    followed by /v1/authenticate/refresh, and a forwarded call goes, with
    the HTTP method the route is registered under, to the URL string
    [API_BASE_URL] followed by the route's upstream path, which starts
    with /v1/ and has [req.params.id] or the query string inserted as
    they come.  This is about the string handed to [fetch]: the id is
    neither encoded nor checked, so the string starts with
    [API_BASE_URL]/v1/ even when the id holds dot segments that lead
    elsewhere once the URL is resolved. *)
Theorem data_routes_url_templates r inb m :
  r ∈ routes → middleware r = true →
  ∃ target payload,
    handler r = Proxy (verb_name (verb r)) target payload ∧
    String.prefix "/v1/" (target_prefix target) = true ∧
    (∀ prefix suffix, target = ById prefix suffix →
       apiPath_of target inb = prefix +:+ in_id inb +:+ suffix) ∧
    Forall (λ rq,
              (∃ rest, url rq = API_BASE_URL +:+ ("/v1/" +:+ rest)) ∧
              if is_refresh rq then
                url rq = API_BASE_URL +:+ "/v1/authenticate/refresh" ∧
                method rq = "POST" ∧ authorization rq = None
              else
                url rq = API_BASE_URL +:+ apiPath_of target inb ∧
                method rq = verb_name (verb r))
      (calls (exec (serve_route r inb) m)).
Proof.
  intros Hin Hguard.
  destruct (routes_targets r Hin Hguard)
    as (verb' & target & payload & Hhandler & Hverb & Hprefix).
  destruct (apiPath_of_prefix target inb Hprefix) as [rest Hpath].
  subst verb'. exists target, payload.
  split_and!; [exact Hhandler | exact Hprefix | by intros prefix suffix -> |].
  set (P := λ rq : FetchRequest,
              (∃ rest', url rq = API_BASE_URL +:+ ("/v1/" +:+ rest')) ∧
              if is_refresh rq then
                url rq = API_BASE_URL +:+ "/v1/authenticate/refresh" ∧
                method rq = "POST" ∧ authorization rq = None
              else
                url rq = API_BASE_URL +:+ apiPath_of target inb ∧
                method rq = verb_name (verb r)).
  assert (∀ refreshToken, P (refresh_rq refreshToken)) as Hrefresh.
  { intros refreshToken. split; [by exists "authenticate/refresh" | done]. }
  assert (∀ body accessToken,
            P (forward_rq (verb_name (verb r)) (apiPath_of target inb)
                 body accessToken))
    as Hforward.
  { intros body accessToken. split.
    - exists rest. cbn. by rewrite Hpath.
    - by rewrite is_refresh_forward. }
  unfold serve. rewrite Hguard, Hhandler. cbn zeta. rewrite run_bind. cbn zeta.
  cbn [calls]. apply Forall_app. split.
  - destruct (requireAuth_next (in_req inb) m) as [[-> | [r' ->]] _];
      [constructor|]. constructor; [apply Hrefresh | constructor].
  - destruct (result (exec (requireAuth as_tokens json_truthy API_BASE_URL
                              (in_req inb)) m))
      as [reply | session sessionId]; [constructor|].
    cbn [run_handler proxy_handler].
    assert (∀ body m',
              Forall P
                (calls (exec (proxyRequest as_tokens json_truthy API_BASE_URL
                                session sessionId (verb_name (verb r))
                                (apiPath_of target inb) body) m')))
      as Hproxy.
    { intros body m'.
      destruct (proxyRequest_calls session sessionId (verb_name (verb r))
                  (apiPath_of target inb) body m')
        as (tok & r' & tok' & [-> | [-> | ->]]);
        repeat (constructor; [first [apply Hforward | apply Hrefresh] |]);
        constructor. }
    destruct payload as [| schema |]; unfold proxy_handler;
      [apply Hproxy | | apply Hproxy].
    destruct (zod_parse schema (in_body inb)); [apply Hproxy | cbn; constructor].
Qed.

(** ** The identity snapshot *)

(** Take the handlers apart along every branch they have. *)
Ltac branches :=
  repeat (cbn -[Z.add Z.mul Z.ltb Z.eqb Z.leb TOKEN_REFRESH_BUFFER_MS];
          match goal with
          | |- context [match ?x with _ => _ end] => destruct x eqn:?
          | |- context [from_option _ _ ?x] => destruct x eqn:?
          end).

Lemma no_identity_insert (store : gmap string SessionData) sessionId row :
  no_identity store → user row = None → customer row = None →
  no_identity (<[sessionId := row]> store).
Proof.
  intros Hstore Huser Hcustomer sid row'.
  destruct (decide (sid = sessionId)) as [-> | Hne].
  - rewrite lookup_insert_eq. by intros [= <-].
  - rewrite lookup_insert_ne by done. apply Hstore.
Qed.

Lemma no_identity_delete (store : gmap string SessionData) sessionId :
  no_identity store → no_identity (delete sessionId store).
Proof.
  intros Hstore sid row Hrow. apply lookup_delete_Some in Hrow as [_ Hrow].
  by apply (Hstore sid).
Qed.

Lemma login_exchange_no_identity r m :
  no_identity (sessions m) →
  no_identity (sessions (final (exec (login_exchange as_tokens r) m))).
Proof.
  intros Hstore.
  destruct (login_exchange_store r m) as
    [_ [(sessionId & row & _ & -> & Huser & Hcustomer) | (_ & _ & ->)]];
    [by apply no_identity_insert | done].
Qed.

Lemma run_handler_no_identity h inb session sessionId m :
  no_identity (sessions m) →
  no_identity
    (sessions (final (exec (run_handler as_tokens json_truthy API_BASE_URL is_uuid zod_parse
                              h inb session sessionId) m))).
Proof.
  intros Hstore. destruct h as [| | | | | verb' target payload]; cbn [run_handler].
  - unfold login_pincode.
    destruct (loginPincodeSchema_parse is_uuid (in_pincode inb)); [|done].
    unfold apiRequest, fetch. cbn zeta. rewrite run_bind. cbn [run].
    destruct (env_fetch (world m) _) as [r w1]. cbn zeta. cbn [result final].
    by apply login_exchange_no_identity.
  - unfold login_otp. destruct (loginOtpSchema_parse (in_otp inb)); [|done].
    unfold apiRequest, fetch. cbn zeta. rewrite run_bind. cbn [run].
    destruct (env_fetch (world m) _) as [r w1]. cbn zeta. cbn [result final].
    by apply login_exchange_no_identity.
  - unfold forgot_password, apiRequest, fetch. by branches.
  - unfold logout, deleteSession.
    destruct (truthy (getSessionId (in_req inb))); cbn; [|done].
    by apply no_identity_delete.
  - unfold auth_session, getSessionInfo.
    destruct (truthy (getSessionId (in_req inb))); cbn; [|done].
    destruct (sessions m !! _); cbn; [|done].
    destruct (env_now (world m)) as [t w1]. destruct (_ <? t); cbn; [|done].
    by apply no_identity_delete.
  - assert (∀ body,
              no_identity
                (sessions (final (exec (proxyRequest as_tokens json_truthy API_BASE_URL session
                                          sessionId verb' (apiPath_of target inb) body)
                                    m)))) as Hproxy.
    { intros body. eapply same_or_rewritten_no_identity; [|exact Hstore].
      apply proxyRequest_store. }
    destruct payload as [| schema |]; unfold proxy_handler; [apply Hproxy | | apply Hproxy].
    destruct (zod_parse schema (in_body inb)); [apply Hproxy | done].
Qed.

Lemma relay_no_session_info (response : @Response Json) info :
  reply_body (relay response) ≠ JsonSessionInfo info.
Proof. unfold relay. by branches. Qed.

Lemma proxyRequest_no_session_info session sessionId method apiPath body m info :
  reply_body
    (result (exec (proxyRequest as_tokens json_truthy API_BASE_URL session sessionId
                     method apiPath body) m))
  ≠ JsonSessionInfo info.
Proof.
  unfold proxyRequest, apiRequest, fetch. step.
  destruct (env_fetch (world m) _) as [[|response] w1]; step; [done|].
  destruct ((status response =? 401) && truthy (session ≫= refreshToken)); step;
    [|apply relay_no_session_info].
  refresh_exchange.
  destruct (refresh_of w1 _) as [[newTokens|] w2]; step; [|done].
  destruct (env_now w2) as [t w3]. step.
  destruct (sessions m !! sessionId) as [row|]; step;
    destruct (env_fetch w3 _) as [[|response2] w4]; step;
    first [done | apply relay_no_session_info].
Qed.

(** X23: no route ever stores a user or a customer.  Starting from a
    store in which no row has one (the empty store the server starts
    with is such a store), whatever route is served with whatever
    request, no row has one afterwards; and so the session query, the
    only reply that can carry them, never reports a user or a customer. *)
Theorem routes_never_store_identity r inb m :
  no_identity (sessions m) →
  let out := exec (serve_route r inb) m in
  no_identity (sessions (final out)) ∧
  ∀ info,
    reply_body (result out) = JsonSessionInfo info →
    info_user info = None ∧ info_customer info = None.
Proof.
  intros Hstore out. subst out. unfold serve.
  assert (∀ session sessionId m',
            no_identity (sessions m') →
            ∀ info,
              reply_body
                (result (exec (run_handler as_tokens json_truthy API_BASE_URL is_uuid zod_parse
                                 (handler r) inb session sessionId) m'))
                = JsonSessionInfo info →
              info_user info = None ∧ info_customer info = None) as Hreply.
  { intros session sessionId m' Hstore' info.
    destruct (handler r) as [| | | | | verb' target payload]; cbn [run_handler].
    - unfold login_pincode, login_exchange, apiRequest, fetch. by branches.
    - unfold login_otp, login_exchange, apiRequest, fetch. by branches.
    - unfold forgot_password, apiRequest, fetch. by branches.
    - unfold logout, deleteSession. by branches.
    - unfold auth_session, getSessionInfo.
      destruct (truthy (getSessionId (in_req inb))); cbn; [|by intros [= <-]].
      destruct (sessions m' !! _) as [row|] eqn:Hrow; cbn; [|by intros [= <-]].
      destruct (env_now (world m')) as [t w1].
      destruct (_ <? t); cbn; intros [= <-]; [done|].
      by apply (Hstore' _ _ Hrow).
    - intros Hbody. exfalso. revert Hbody.
      destruct payload as [| schema |]; unfold proxy_handler;
        [apply proxyRequest_no_session_info | | apply proxyRequest_no_session_info].
      destruct (zod_parse schema (in_body inb));
        [apply proxyRequest_no_session_info | done]. }
  destruct (middleware r).
  - cbn zeta. rewrite run_bind. cbn zeta. cbn [result final].
    pose proof (same_or_rewritten_no_identity _ _ _
                  (requireAuth_store (in_req inb) m) Hstore) as Hauth.
    destruct (result (exec (requireAuth as_tokens json_truthy API_BASE_URL (in_req inb)) m))
      as [reply | session sessionId] eqn:Hresult.
    + cbn. split; [exact Hauth|]. intros info Hbody. exfalso. revert Hbody Hresult.
      unfold requireAuth, refreshTokens, apiRequest, fetch.
      clear. intros Hbody. branches; intros [= <-]; done.
    + split; [by apply run_handler_no_identity | by apply Hreply].
  - split; [by apply run_handler_no_identity | by apply Hreply].
Qed.

(** ** Concurrent requests, continued *)

(** Unfold the interleaving semantics and the handlers, refresh
    exchange included. *)
Ltac interleave :=
  cbn -[refresh_request forward_request TOKEN_REFRESH_BUFFER_MS
        Z.add Z.mul Z.ltb Z.eqb Z.leb].

(** X24: a logout that lands while a proactive refresh is in flight
    wins.  When the refresh completes, the deleted row is not created
    again and the store stays without it; the suspended request still
    goes on, with no session attached, and its forwarded call carries no
    Authorization header. *)
Theorem logout_during_refresh req sessionId session r method apiPath body m
    t1 w1 response w2 j t2 w3 :
  presents req sessionId →
  sessions m !! sessionId = Some session →
  refreshToken session = Some r → r ≠ "" →
  env_now (world m) = (t1, w1) →
  expiresAt session < t1 + TOKEN_REFRESH_BUFFER_MS →
  env_fetch w1 (refresh_rq r) = (Resolved response, w2) →
  ok response = true → json response = Some j → json_truthy j = true →
  env_now w2 = (t2, w3) →
  let server :=
    sched (mkServer
             [Ready (protected_route as_tokens json_truthy API_BASE_URL req method apiPath body);
              Ready (logout req)] m)
      [0; 1; 0]%nat in
  sessions (machine server) = delete sessionId (sessions m) ∧
  authorization (forward_rq method apiPath body None) = None ∧
  ∃ k, tasks server =
         [Awaiting (forward_rq method apiPath body None) k;
          Finished (mkReply 200 JsonSuccess CookieCleared)].
Proof.
  intros [Hcookie Hid] Hrow Hr Hne Hnow Hnear Hfetch Hok Hjson Htruthy Hnow2.
  apply Z.ltb_lt in Hnear.
  unfold schedule. cbn [foldl]. unfold resume at 3. cbn [tasks machine lookup list_lookup].
  unfold protected_route, requireAuth, refreshTokens, apiRequest, fetch.
  rewrite Hcookie, (truthy_Some _ Hid). interleave. rewrite Hrow. interleave.
  rewrite Hnow, Hnear, Hr, (truthy_Some _ Hne). interleave.
  unfold resume at 2. cbn [tasks machine lookup list_lookup].
  unfold logout, deleteSession. rewrite Hcookie, (truthy_Some _ Hid). interleave.
  unfold resume. cbn [tasks machine lookup list_lookup]. interleave.
  fold (refresh_rq r). rewrite Hfetch. interleave. rewrite Hok, Hjson. interleave.
  rewrite Htruthy. interleave.
  rewrite Hnow2. interleave. rewrite lookup_delete_eq. interleave.
  rewrite lookup_delete_eq. interleave.
  unfold proxyRequest, apiRequest, fetch. interleave.
  split_and!; [done | done |]. eexists. reflexivity.
Qed.

(** X25: of two concurrent refreshes of one session, the one that
    completes last wins.  Both send the same refresh token; each request
    goes on with the credentials of its own exchange, but the row ends
    up holding only those of the later one, and a refresh token that the
    earlier exchange had rotated in is overwritten. *)
Theorem concurrent_refreshes_last_writer_wins req sessionId session r m
    t1 w1 t1' w1' response1 w2 j1 ta w3 response2 w4 j2 tb w5 :
  presents req sessionId →
  sessions m !! sessionId = Some session →
  refreshToken session = Some r → r ≠ "" →
  env_now (world m) = (t1, w1) →
  expiresAt session < t1 + TOKEN_REFRESH_BUFFER_MS →
  env_now w1 = (t1', w1') →
  expiresAt session < t1' + TOKEN_REFRESH_BUFFER_MS →
  env_fetch w1' (refresh_rq r) = (Resolved response1, w2) →
  ok response1 = true → json response1 = Some j1 → json_truthy j1 = true →
  env_now w2 = (ta, w3) →
  env_fetch w3 (refresh_rq r) = (Resolved response2, w4) →
  ok response2 = true → json response2 = Some j2 → json_truthy j2 = true →
  env_now w4 = (tb, w5) →
  let server :=
    sched (mkServer
             [Ready (requireAuth as_tokens json_truthy API_BASE_URL req);
              Ready (requireAuth as_tokens json_truthy API_BASE_URL req)] m)
      [0; 1; 0; 1]%nat in
  tasks server =
    [Finished (Next (Some (refreshed session (as_tokens j1) ta)) sessionId);
     Finished (Next (Some (refreshed session (as_tokens j2) tb)) sessionId)] ∧
  sessions (machine server) !! sessionId
    = Some (refreshed session (as_tokens j2) tb) ∧
  (refresh_token (as_tokens j2) = None →
   refreshToken <$> sessions (machine server) !! sessionId = Some (Some r)).
Proof.
  intros [Hcookie Hid] Hrow Hr Hne Hnow Hnear Hnow' Hnear'
    Hfetch1 Hok1 Hjson1 Htruthy1 Hnowa Hfetch2 Hok2 Hjson2 Htruthy2 Hnowb.
  apply Z.ltb_lt in Hnear, Hnear'.
  assert (sched (mkServer
                   [Ready (requireAuth as_tokens json_truthy API_BASE_URL req);
                    Ready (requireAuth as_tokens json_truthy API_BASE_URL req)] m)
            [0; 1; 0; 1]%nat
          = mkServer
              [Finished (Next (Some (refreshed session (as_tokens j1) ta)) sessionId);
               Finished (Next (Some (refreshed session (as_tokens j2) tb)) sessionId)]
              (mkMachine
                 (<[sessionId := refreshed session (as_tokens j2) tb]>
                    (<[sessionId := refreshed session (as_tokens j1) ta]>
                       (sessions m))) w5))
    as Hserver.
  { unfold schedule. cbn [foldl]. unfold resume.
    unfold requireAuth, refreshTokens, apiRequest, fetch.
    rewrite Hcookie, (truthy_Some _ Hid). interleave. rewrite Hrow. interleave.
    rewrite Hnow, Hnear, Hr, (truthy_Some _ Hne). interleave.
    rewrite Hrow. interleave.
    rewrite Hnow', Hnear', ?Hr, ?(truthy_Some _ Hne). interleave.
    fold (refresh_rq r). rewrite Hfetch1. interleave. rewrite Hok1, Hjson1. interleave.
    rewrite Htruthy1. interleave.
    rewrite Hnowa. interleave. rewrite Hrow. interleave.
    rewrite ?lookup_insert_eq. interleave.
    rewrite Hfetch2. interleave. rewrite Hok2, Hjson2. interleave.
    rewrite Htruthy2. interleave.
    rewrite Hnowb. interleave. rewrite ?lookup_insert_eq. interleave.
    rewrite ?lookup_insert_eq.
    unfold refreshed, refresh_data, spread. cbn. by rewrite Hr. }
  cbn zeta. rewrite Hserver. cbn [tasks machine sessions].
  rewrite lookup_insert_eq.
  split_and!; [done | done |].
  intros Hnone. cbn. unfold js_or. by rewrite Hnone, Hr.
Qed.

(** X26: one request can cost two refresh exchanges.  When
    [requireAuth] has refreshed the session and the forwarded call is
    answered 401 all the same, [proxyRequest] refreshes again, with the
    refresh token as the first exchange left it, and retries with the
    second access token: refresh, forward, refresh, forward. *)
Theorem protected_route_double_refresh req sessionId session r method apiPath body m
    t1 w1 first w2 t2 w3 w4 r' second w5 t3 w6 o w7 :
  presents req sessionId →
  sessions m !! sessionId = Some session →
  refreshToken session = Some r → r ≠ "" →
  env_now (world m) = (t1, w1) →
  expiresAt session < t1 + TOKEN_REFRESH_BUFFER_MS →
  refresh_of w1 r = (Some first, w2) →
  env_now w2 = (t2, w3) →
  answers_401 env_fetch w3
    (forward_rq method apiPath body (Some (access_token first))) w4 →
  js_or (refresh_token first) (Some r) = Some r' →
  refresh_of w4 r' = (Some second, w5) →
  env_now w5 = (t3, w6) →
  env_fetch w6 (forward_rq method apiPath body (Some (access_token second)))
    = (o, w7) →
  let out := exec (protected_route as_tokens json_truthy API_BASE_URL req method apiPath body) m in
  calls out =
    [refresh_rq r;
     forward_rq method apiPath body (Some (access_token first));
     refresh_rq r';
     forward_rq method apiPath body (Some (access_token second))] ∧
  refresh_calls (calls out) = 2%nat ∧
  ∃ row, sessions (final out) !! sessionId = Some row ∧
    accessToken row = access_token second ∧
    expiresAt row = t3 + expires_in second * 1000.
Proof.
  intros Hid Hrow Hr Hne Hnow Hnear Hfirst Hnow2 H401 Hrotated Hsecond Hnow3 Hretry.
  unfold protected_route. cbn zeta. rewrite run_bind.
  rewrite (exec_requireAuth_refreshed _ _ _ _ _ _ _ _ _ _ _
             Hid Hrow Hnow Hnear Hr Hne Hfirst Hnow2).
  cbn [result final calls]. cbn zeta.
  set (row1 := refreshed session first t2).
  assert (refreshToken row1 = Some r') as Hr1.
  { subst row1. cbn. by rewrite Hr. }
  assert (r' ≠ "") as Hne1.
  { unfold js_or in Hrotated.
    destruct (truthy (refresh_token first)) eqn:Htruthy.
    - apply truthy_inv in Htruthy as (r0 & Hr0 & Hnonempty). congruence.
    - congruence. }
  assert (accessToken row1 = access_token first) as Haccess by done.
  rewrite <- Haccess in H401.
  rewrite (exec_proxyRequest_retry row1 sessionId method apiPath body
             (mkMachine (<[sessionId := row1]> (sessions m)) w3)
             w4 _ second w5 t3 w6 o w7 Hr1 Hne1 H401 Hsecond Hnow3 Hretry).
  cbn [calls final sessions app]. rewrite lookup_insert_eq, Haccess.
  split_and!.
  - done.
  - unfold refresh_calls. rewrite !filter_cons, filter_nil.
    rewrite !is_refresh_refresh, !is_refresh_forward.
    by repeat case_decide.
  - eexists. rewrite lookup_insert_eq. by split.
Qed.

End Properties.

(** * The handlers on concrete inputs *)

Section Scenarios.

Import Script.

(** Discharge a side condition that is decided by running the script. *)
Ltac scripted :=
  first [ reflexivity
        | discriminate
        | split; [reflexivity | discriminate]
        | eexists; split; reflexivity
        | cbn; lia ].

(** C1, refuted as stated: two concurrent [resolve] calls for one
    session, both started 60 s before it expires, each send a refresh;
    two refresh exchanges are in flight at once. *)
Lemma two_refreshes_in_flight :
  let m := mkMachine {["s1" := live_row]} (mkEnv 940000 [] []) in
  let server :=
    schedule now uuid answer
      (mkServer [Ready (resolve "s1"); Ready (resolve "s1")] m)
      [0%nat; 1%nat] in
  ¬ (in_flight_refreshes server ≤ 1)%nat.
Proof.
  intros m server.
  assert (in_flight_refreshes server = 2%nat) as -> by (vm_compute; reflexivity).
  lia.
Qed.

(** Three concurrent [resolve] calls, and three concurrent forwarded
    calls that the upstream denies, each have their own refresh in
    flight. *)
Lemma refresh_is_per_call_witness :
  let m := mkMachine {["s1" := live_row]} (mkEnv 940000 [] []) in
  refresh_calls (calls (exec (resolve "s1") m)) = 1%nat ∧
  in_flight_refreshes
    (schedule now uuid answer
       (mkServer (replicate 3 (Ready (resolve "s1"))) m) (seq 0 3)) = 3%nat ∧
  in_flight_refreshes
    (schedule now uuid deny
       (mkServer (replicate 3 (Ready (forward (Some live_row) "s1"))) m)
       (seq 0 3 ++ seq 0 3)) = 3%nat.
Proof.
  intros m. split_and!.
  - edestruct (refresh_is_per_call as_tokens json_truthy base now uuid answer
                 3 (with_cookie "s1") "s1" live_row "R0" m)
      as (Hone & _ & _); [scripted .. |].
    eapply Hone; scripted.
  - edestruct (refresh_is_per_call as_tokens json_truthy base now uuid answer
                 3 (with_cookie "s1") "s1" live_row "R0" m)
      as (_ & Hresolve & _); [scripted .. |].
    apply Hresolve. repeat constructor.
  - edestruct (refresh_is_per_call as_tokens json_truthy base now uuid deny
                 3 (with_cookie "s1") "s1" live_row "R0" m)
      as (_ & _ & Hforward); [scripted .. |].
    apply Hforward. intros w. exists w. eexists. split; reflexivity.
Defined.

(** A forwarded call answered 401, refreshed, and answered 401 again. *)
Lemma proxyRequest_retry_bound_witness :
  let m := mkMachine {["s1" := live_row]}
             (mkEnv 0 [] [(10, plain 401 "denied");
                          (10, credentials 200 renewed);
                          (10, plain 401 "denied")]) in
  let out := exec (forward (Some live_row) "s1") m in
  result out = session_expired ∧
  forwarded_calls (calls out) = 2%nat ∧
  refresh_calls (calls out) = 1%nat.
Proof.
  intros m out.
  destruct (proxyRequest_retry_bound as_tokens json_truthy base now uuid answer
              (Some live_row) "s1" "GET" "/v1/users/me" None m) as [_ Hscenario].
  edestruct Hscenario as (Hresult & _ & Hforwarded & Hrefresh).
  1-7: scripted.
  split_and!; [exact Hresult | exact Hforwarded | exact Hrefresh].
Defined.

(** C3, refuted as stated: [resolve] 60 s before expiry, the refresh is
    answered 500.  NotAuthenticated is reported, and the session row is
    still in the store. *)
Lemma failed_refresh_keeps_row :
  let m := mkMachine {["s1" := live_row]} (mkEnv 940000 [] [(10, plain 500 "oops")]) in
  let out := exec (resolve "s1") m in
  result out = Replied session_expired ∧
  calls out = [refresh_request base "R0"] ∧
  sessions (final out) !! "s1" ≠ None.
Proof. split_and!; [reflexivity | reflexivity | discriminate]. Qed.

(** The three ways a refresh can end a session, on the script. *)
Lemma failed_refresh_reports_unauthenticated_witness :
  let store : gmap string SessionData := {["s1" := live_row]} in
  (let out := exec (resolve "s1")
                (mkMachine store (mkEnv 940000 [] [(10, plain 500 "oops")])) in
   result out = Replied session_expired ∧ sessions (final out) = store) ∧
  (let out := exec (forward (Some live_row) "s1")
                (mkMachine store
                   (mkEnv 0 [] [(10, plain 401 "denied"); (10, plain 500 "oops")])) in
   result out = session_expired ∧ sessions (final out) = store) ∧
  (let out := exec (forward (Some live_row) "s1")
                (mkMachine store
                   (mkEnv 0 [] [(10, plain 401 "denied");
                                (10, credentials 200 renewed);
                                (10, plain 401 "denied")])) in
   result out = session_expired ∧
   sessions (final out) !! "s1" = Some (refreshed live_row renewed 20)).
Proof.
  intros store. split_and!.
  - edestruct (failed_refresh_reports_unauthenticated as_tokens json_truthy base
                 now uuid answer (with_cookie "s1") "s1" live_row "R0"
                 (mkMachine store (mkEnv 940000 [] [(10, plain 500 "oops")])))
      as (Hresolve & _ & _); [scripted .. |].
    eapply Hresolve; scripted.
  - edestruct (failed_refresh_reports_unauthenticated as_tokens json_truthy base
                 now uuid answer (with_cookie "s1") "s1" live_row "R0"
                 (mkMachine store
                    (mkEnv 0 [] [(10, plain 401 "denied"); (10, plain 500 "oops")])))
      as (_ & Hforward & _); [scripted .. |].
    eapply Hforward; scripted.
  - edestruct (failed_refresh_reports_unauthenticated as_tokens json_truthy base
                 now uuid answer (with_cookie "s1") "s1" live_row "R0"
                 (mkMachine store
                    (mkEnv 0 [] [(10, plain 401 "denied");
                                 (10, credentials 200 renewed);
                                 (10, plain 401 "denied")])))
      as (_ & _ & Hretry); [scripted .. |].
    eapply Hretry; scripted.
Defined.

(** C4: [resolve] on a session that expired a second ago and has no
    refresh credential reports NotAuthenticated and leaves the row in
    the store, where [getSessionInfo] on the same store deletes it. *)
Lemma requireAuth_leaves_expired_row :
  let m := mkMachine {["s1" := stale_row]} (mkEnv 2000 [] []) in
  let out := exec (resolve "s1") m in
  result out = Replied session_expired ∧
  sessions (final out) !! "s1" = Some stale_row ∧
  sessions (final (exec (getSessionInfo "s1") m)) !! "s1" = None.
Proof. split_and!; reflexivity. Qed.

(** C5, refuted as stated: querying [session_info] for an expired
    session changes the store. *)
Lemma getSessionInfo_deletes_expired_row :
  let m := mkMachine {["s1" := stale_row]} (mkEnv 2000 [] []) in
  let out := exec (getSessionInfo "s1") m in
  sessions (final out) ≠ sessions m.
Proof.
  intros m out Heq. apply (f_equal (λ store, store !! "s1")) in Heq.
  discriminate Heq.
Qed.

(** [session_info] for an expired session, next to a live one. *)
Lemma getSessionInfo_frame_witness :
  let m := mkMachine {["s1" := stale_row; "s2" := live_row]} (mkEnv 2000 [] []) in
  let out := exec (getSessionInfo "s1") m in
  calls out = [] ∧
  sessions (final out) !! "s2" = Some live_row ∧
  sessions (final out) = delete "s1" (sessions m).
Proof.
  intros m out.
  destruct (getSessionInfo_frame now uuid answer "s1" m) as (Hcalls & Hothers & Hstore).
  split_and!; [exact Hcalls | | exact Hstore].
  subst out. unfold exec. rewrite (Hothers "s2"); [reflexivity | discriminate].
Defined.

(** A login at 5 000 ms, a proactive refresh answered at 940 010 ms and
    a reactive refresh answered at 20 ms, each with [expires_in] 3600. *)
Lemma expiresAt_from_upstream_lifetime_witness :
  (let out := exec (login_exchange as_tokens (credentials 200 issued))
                (mkMachine ∅ (mkEnv 5000 ["sid-1"] [])) in
   expiresAt <$> sessions (final out) !! "sid-1" = Some (5000 + 3600 * 1000)) ∧
  (let out := exec (resolve "s1")
                (mkMachine {["s1" := live_row]}
                   (mkEnv 940000 [] [(10, credentials 200 renewed)])) in
   expiresAt <$> sessions (final out) !! "s1" = Some (940010 + 3600 * 1000)) ∧
  (let out := exec (forward (Some live_row) "s1")
                (mkMachine {["s1" := live_row]}
                   (mkEnv 0 [] [(10, plain 401 "denied");
                                (10, credentials 200 renewed);
                                (10, plain 200 "done")])) in
   expiresAt <$> sessions (final out) !! "s1" = Some (20 + 3600 * 1000)).
Proof.
  split_and!.
  - edestruct (expiresAt_from_upstream_lifetime as_tokens json_truthy base now uuid answer
                 (mkMachine ∅ (mkEnv 5000 ["sid-1"] []))) as (Hlogin & _ & _).
    eapply (Hlogin _ (Credentials issued)); scripted.
  - edestruct (expiresAt_from_upstream_lifetime as_tokens json_truthy base now uuid answer
                 (mkMachine {["s1" := live_row]}
                    (mkEnv 940000 [] [(10, credentials 200 renewed)])))
      as (_ & Hresolve & _).
    eapply (Hresolve (with_cookie "s1") "s1" live_row "R0" _ _ renewed); scripted.
  - edestruct (expiresAt_from_upstream_lifetime as_tokens json_truthy base now uuid answer
                 (mkMachine {["s1" := live_row]}
                    (mkEnv 0 [] [(10, plain 401 "denied");
                                 (10, credentials 200 renewed);
                                 (10, plain 200 "done")])))
      as (_ & _ & Hforward).
    eapply (Hforward "s1" live_row "R0" _ _ _ _ renewed); scripted.
Defined.

(** The upstream issues [A1]/[R1] for 3600 s; the session is resolved
    right after the login. *)
Lemma login_then_resolve_witness :
  let m := mkMachine ∅ (mkEnv 5000 ["sid-1"] [(10, credentials 200 issued)]) in
  let login := exec login m in
  result login = mkReply 200 JsonSuccess (CookieSet "sid-1") ∧
  ∃ session,
    result (exec (resolve "sid-1") (final login)) = Next (Some session) "sid-1" ∧
    accessToken session = "A1".
Proof.
  intros m login.
  edestruct (login_then_resolve as_tokens json_truthy base is_uuid now uuid answer
               (mkLoginPincode "123e4567-e89b-12d3-a456-426614174000" "1234")
               (mkLoginPincode "123e4567-e89b-12d3-a456-426614174000" "1234")
               m
               (mkResponse 200 (Some "application/json") "" (Some (Credentials issued)))
               (mkEnv 5010 ["sid-1"] []) (Credentials issued)
               "sid-1" (mkEnv 5010 [] []) 5010 (mkEnv 5010 [] []))
    as (Hlogin & Hresolve); [scripted .. |].
  split; [exact Hlogin|].
  edestruct (Hresolve (with_cookie "sid-1") (world (final login)))
    as (session & Hnext & Haccess & _);
    [scripted .. |].
  exists session. split; [exact Hnext | exact Haccess].
Defined.

(** Logging out twice of a session that has a row. *)
Lemma logout_idempotent_witness :
  let m := mkMachine {["s1" := live_row]} (mkEnv 0 [] []) in
  let first := exec (logout (with_cookie "s1")) m in
  let second := exec (logout (with_cookie "s1")) (final first) in
  result first = mkReply 200 JsonSuccess CookieCleared ∧
  sessions (final first) !! "s1" = None ∧
  result second = mkReply 200 JsonSuccess CookieCleared ∧
  sessions (final second) !! "s1" = None.
Proof.
  intros m first second.
  destruct (logout_idempotent now uuid answer (with_cookie "s1") m)
    as ((Hfirst & _) & (Hsecond & _) & _ & Hrow).
  destruct (Hrow "s1") as [Hgone Hgone'].
  - split; [reflexivity | discriminate].
  - split_and!; [exact Hfirst | exact Hgone | exact Hsecond | exact Hgone'].
Defined.

(** C9, refuted as stated: two concurrent [resolve] calls for one
    session, 60 s before it expires, both send [R0].  The first exchange
    to complete rotates the credential to [R1]; the second one's
    response has no [refresh_token], and its update puts [R0] back: the
    session does not retain the credential it had before that update. *)
Lemma omitted_refresh_token_overwrites_rotation :
  let m := mkMachine {["s1" := live_row]}
             (mkEnv 940000 [] [(10, credentials 200 issued);
                               (10, credentials 200 renewed)]) in
  let server := mkServer [Ready (resolve "s1"); Ready (resolve "s1")] m in
  let before := schedule now uuid answer server [0; 1; 0]%nat in
  let after := schedule now uuid answer server [0; 1; 0; 1]%nat in
  refresh_token renewed = None ∧
  refreshToken <$> sessions (machine before) !! "s1" = Some (Some "R1") ∧
  refreshToken <$> sessions (machine after) !! "s1" = Some (Some "R0") ∧
  ¬ (refreshToken <$> sessions (machine after) !! "s1"
     = refreshToken <$> sessions (machine before) !! "s1").
Proof.
  split_and!; [reflexivity | reflexivity | reflexivity |].
  intros Hretained. vm_compute in Hretained. discriminate Hretained.
Qed.

(** The upstream renews the access token without a [refresh_token].
    Served alone, [R0] stays; completing after the row was rotated to
    [R1], the update writes [R0] back. *)
Lemma refresh_falls_back_on_sent_refresh_token_witness :
  let m := mkMachine {["s1" := live_row]}
             (mkEnv 940000 [] [(10, credentials 200 renewed)]) in
  let rotated := mkMachine {["s1" := refreshed live_row issued 940010]}
                   (mkEnv 940010 [] [(10, credentials 200 renewed)]) in
  (let out := exec (resolve "s1") m in
   refreshToken <$> sessions (final out) !! "s1" = Some (Some "R0")) ∧
  (let out := exec (forward (Some live_row) "s1")
                (mkMachine {["s1" := live_row]}
                   (mkEnv 0 [] [(10, plain 401 "denied");
                                (10, credentials 200 renewed);
                                (10, plain 200 "done")])) in
   refreshToken <$> sessions (final out) !! "s1" = Some (Some "R0")) ∧
  (refreshToken <$> sessions rotated !! "s1" = Some (Some "R1") ∧
   ∃ k,
     advance now uuid (resolve "s1") m = (Awaiting (refresh_request base "R0") k, m) ∧
     refreshToken <$>
       sessions (resume_task now uuid answer
                   (Awaiting (refresh_request base "R0") k) rotated).2 !! "s1"
       = Some (Some "R0")).
Proof.
  intros m rotated. split_and!.
  - edestruct (refresh_falls_back_on_sent_refresh_token as_tokens json_truthy base
                 now uuid answer (with_cookie "s1") "s1" live_row "R0" m)
      as (Hresolve & _); [scripted .. |].
    edestruct Hresolve as (row & Hrow & Hkept & _); [scripted .. |].
    cbn zeta. unfold exec, resolve, forward. rewrite Hrow.
    cbn [fmap option_fmap option_map]. f_equal. apply Hkept. reflexivity.
  - edestruct (refresh_falls_back_on_sent_refresh_token as_tokens json_truthy base
                 now uuid answer (with_cookie "s1") "s1" live_row "R0"
                 (mkMachine {["s1" := live_row]}
                    (mkEnv 0 [] [(10, plain 401 "denied");
                                 (10, credentials 200 renewed);
                                 (10, plain 200 "done")])))
      as (_ & Hforward & _); [scripted .. |].
    edestruct Hforward as (row & Hrow & Hkept & _); [scripted .. |].
    cbn zeta. unfold exec, resolve, forward. rewrite Hrow.
    cbn [fmap option_fmap option_map]. f_equal. apply Hkept. reflexivity.
  - reflexivity.
  - edestruct (refresh_falls_back_on_sent_refresh_token as_tokens json_truthy base
                 now uuid answer (with_cookie "s1") "s1" live_row "R0" m)
      as (_ & _ & Hsuspended & _); [scripted .. |].
    edestruct (Hsuspended 940000 (world m)) as (k & Hstart & Hresume);
      [scripted .. |].
    exists k. split; [exact Hstart|].
    edestruct (Hresume rotated) as (row & Hrow & Hsent & _); [scripted .. |].
    unfold resolve. rewrite Hrow. cbn [fmap option_fmap option_map].
    by rewrite Hsent.
Defined.


(** ** The further properties on concrete inputs *)

(** A session created next to an existing one. *)
Lemma createSession_getSession_witness :
  let m := mkMachine {["s1" := live_row]} (mkEnv 5000 ["sid-1"] []) in
  let out := exec (createSession issued None None) m in
  result out = "sid-1" ∧
  result (exec (getSession "sid-1") (final out))
    = Some (created issued None None 5000) ∧
  sessions (final out) !! "s1" = Some live_row.
Proof.
  intros m out.
  destruct (createSession_getSession now uuid answer issued None None m)
    as (Hid & _ & Hget & Hothers).
  split_and!; [exact Hid | exact Hget |].
  subst out. unfold exec. rewrite (Hothers "s1"); [reflexivity | discriminate].
Defined.

(** An update of an unknown session, and one of a known session. *)
Lemma updateSession_no_upsert_witness :
  let m := mkMachine {["s1" := live_row]} (mkEnv 0 [] []) in
  let data := mkPartial (Some "A9") None None None None in
  sessions (final (exec (updateSession "ghost" data) m)) = sessions m ∧
  sessions (final (exec (updateSession "s1" data) m)) !! "s1"
    = Some (mkSessionData "A9" (Some "R0") 1000000 None None).
Proof.
  intros m data. split.
  - destruct (updateSession_no_upsert now uuid answer "ghost" data m)
      as (_ & Habsent & _).
    apply Habsent. reflexivity.
  - destruct (updateSession_no_upsert now uuid answer "s1" data m)
      as (_ & _ & Hpresent & _).
    destruct (Hpresent live_row) as [Hrow _]; [reflexivity | exact Hrow].
Defined.

(** Creating and deleting a session in a store of one. *)
Lemma createSession_deleteSession_witness :
  let m := mkMachine {["s1" := live_row]} (mkEnv 5000 ["sid-1"] []) in
  sessions (final (exec (createSession issued None None ≫= deleteSession) m))
    = sessions m.
Proof.
  intros m.
  destruct (createSession_deleteSession now uuid answer issued None None m)
    as [Hrestored _]; [reflexivity | exact Hrestored].
Defined.

(** The session query at the very millisecond the session expires. *)
Lemma getSessionInfo_verdict_witness :
  let m := mkMachine {["s1" := live_row]} (mkEnv 1000000 [] []) in
  result (exec (getSessionInfo "s1") m) = mkSessionInfo true None None.
Proof.
  intros m.
  destruct (getSessionInfo_verdict now uuid answer "s1" m) as (_ & Hvalid & _).
  destruct (Hvalid live_row) as [Hresult _];
    [reflexivity | cbn; lia | exact Hresult].
Defined.

(** A request without cookies, and one for a session nobody has. *)
Lemma requireAuth_rejects_without_session_witness :
  let m := mkMachine {["s1" := live_row]} (mkEnv 0 [] []) in
  exec (requireAuth as_tokens json_truthy base anonymous) m
    = mkOutcome (Replied unauthorized) m [] ∧
  exec (resolve "ghost") m = mkOutcome (Replied session_expired) m [].
Proof.
  intros m. split.
  - destruct (requireAuth_rejects_without_session as_tokens json_truthy base now uuid answer
                anonymous m) as [Hanonymous _].
    apply Hanonymous. reflexivity.
  - destruct (requireAuth_rejects_without_session as_tokens json_truthy base now uuid answer
                (with_cookie "ghost") m) as [_ Hghost].
    apply (Hghost "ghost"); scripted.
Defined.

(** A session that cannot be refreshed, at its last millisecond; and a
    refreshable one with exactly 300 s left. *)
Lemma requireAuth_thresholds_witness :
  result (exec (resolve "s1")
            (mkMachine {["s1" := fixed_row]} (mkEnv 1000000 [] [])))
    = Next (Some fixed_row) "s1" ∧
  result (exec (resolve "s1")
            (mkMachine {["s1" := live_row]} (mkEnv 700000 [] [])))
    = Next (Some live_row) "s1".
Proof.
  split.
  - edestruct (requireAuth_thresholds as_tokens json_truthy base now uuid answer
                 (with_cookie "s1") "s1" fixed_row
                 (mkMachine {["s1" := fixed_row]} (mkEnv 1000000 [] [])))
      as [Hfixed _]; [scripted .. |].
    destruct Hfixed as (_ & _ & Hpass & _); [reflexivity|].
    apply Hpass. cbn. lia.
  - edestruct (requireAuth_thresholds as_tokens json_truthy base now uuid answer
                 (with_cookie "s1") "s1" live_row
                 (mkMachine {["s1" := live_row]} (mkEnv 700000 [] [])))
      as [_ Hlive]; [scripted .. |].
    destruct (Hlive "R0") as (_ & _ & Hedge); [reflexivity | discriminate |].
    apply Hedge; cbn; lia.
Defined.

(** A refresh of one session leaves the session next to it alone. *)
Lemma requireAuth_frame_witness :
  let m := mkMachine {["s1" := live_row; "s2" := fixed_row]}
             (mkEnv 940000 [] [(10, credentials 200 renewed)]) in
  let out := exec (resolve "s1") m in
  dom (sessions (final out)) = dom (sessions m) ∧
  sessions (final out) !! "s2" = Some fixed_row.
Proof.
  intros m out.
  destruct (requireAuth_frame as_tokens json_truthy base now uuid answer (with_cookie "s1") m)
    as (Hdom & Hothers & _).
  split; [exact Hdom|].
  subst out. unfold exec, resolve. rewrite (Hothers "s2"); [reflexivity | discriminate].
Defined.

(** A refresh at 940 010 ms for 3600 s, and the next request right
    after it. *)
Lemma requireAuth_refresh_not_repeated_witness :
  let m := mkMachine {["s1" := live_row]}
             (mkEnv 940000 [] [(10, credentials 200 renewed)]) in
  let first := exec (resolve "s1") m in
  let second := exec (resolve "s1")
                  (mkMachine (sessions (final first)) (mkEnv 2000000 [] [])) in
  result second = result first ∧ calls second = [].
Proof.
  intros m first second.
  unshelve epose proof
    (requireAuth_refresh_not_repeated as_tokens json_truthy base now uuid answer
       (with_cookie "s1") "s1" live_row "R0" m
       940000 (mkEnv 940000 [] [(10, credentials 200 renewed)])
       renewed (mkEnv 940010 [] []) 940010 (mkEnv 940010 [] [])
       _ _ _ _ _ _ _ _
       (mkEnv 2000000 [] []) 2000000 (mkEnv 2000000 [] [])
       2000000 (mkEnv 2000000 [] []) _ _ _ _)
    as (Hresult & Hcalls & _); [scripted .. |].
  split; [exact Hresult | exact Hcalls].
Defined.

(** Credentials for 120 s, resolved at the millisecond they were
    stored. *)
Lemma requireAuth_short_lived_tokens_witness :
  let m := mkMachine {["s1" := created brief None None 5000]} (mkEnv 5000 [] []) in
  calls (exec (resolve "s1") m) = [refresh_request base "R3"].
Proof.
  intros m.
  eapply (requireAuth_short_lived_tokens as_tokens json_truthy base now uuid answer
            (with_cookie "s1") "s1" brief None None "R3" 5000 m);
    scripted.
Defined.

(** The session query on a session that expired but could be
    refreshed, followed by a protected request. *)
Lemma session_query_forfeits_refresh_witness :
  let m := mkMachine {["s1" := lapsed_row]}
             (mkEnv 2000 [] [(10, credentials 200 renewed)]) in
  let out := exec (auth_session (with_cookie "s1") ≫= λ _, resolve "s1") m in
  result out = Replied session_expired ∧ calls out = [].
Proof.
  intros m out.
  edestruct (session_query_forfeits_refresh as_tokens json_truthy base now uuid answer
               (with_cookie "s1") "s1" lapsed_row m)
    as (Hresult & Hcalls & _); [scripted .. |].
  split; [exact Hresult | exact Hcalls].
Defined.

(** A refresh exchange that the upstream answers with credentials, and
    one that it answers with 200 and the body [null]. *)
Lemma refreshTokens_contract_witness :
  let issuing := mkMachine ∅ (mkEnv 0 [] [(10, credentials 200 renewed)]) in
  let empty := mkMachine ∅ (mkEnv 0 [] [(10, null_body 200)]) in
  accepted as_tokens json_truthy (result (exec (refreshTokens base "R0") issuing))
    = Some renewed ∧
  result (exec (refreshTokens base "R0") empty) = Some Null ∧
  accepted as_tokens json_truthy (result (exec (refreshTokens base "R0") empty))
    = None.
Proof.
  intros issuing empty. split_and!.
  - destruct (refreshTokens_contract as_tokens json_truthy base now uuid answer
                "R0" issuing) as (_ & _ & _ & Haccepted & _).
    apply Haccepted. eexists _, _, (Credentials renewed).
    split_and!; [reflexivity | cbn; lia | cbn; lia | reflexivity ..].
  - destruct (refreshTokens_contract as_tokens json_truthy base now uuid answer
                "R0" empty) as (_ & _ & Hreturned & _).
    apply Hreturned. eexists _, _.
    split_and!; [reflexivity | cbn; lia | cbn; lia | reflexivity].
  - destruct (refreshTokens_contract as_tokens json_truthy base now uuid answer
                "R0" empty) as (_ & _ & _ & _ & Hfalsy).
    eapply Hfalsy; reflexivity.
Defined.

(** A 200 with a JSON body and a charset, a 204 that announces JSON
    and has no body, and a 404 page. *)
Lemma proxyRequest_relays_witness :
  let serving reply :=
    exec (forward (Some live_row) "s1")
      (mkMachine {["s1" := live_row]} (mkEnv 0 [] [(10, reply)])) in
  result (serving (json_utf8 200 "{ok:true}"))
    = mkReply 200 (JsonRelay (Document "{ok:true}")) CookieUntouched ∧
  result (serving (no_content 204)) = internal_error ∧
  result (serving (html 404 "<h1>Not found</h1>"))
    = mkReply 404 (TextRelay "<h1>Not found</h1>") CookieUntouched.
Proof.
  intros serving. split_and!.
  - edestruct (proxyRequest_relays as_tokens json_truthy base now uuid answer
                 (Some live_row) "s1" "GET" "/v1/users/me" None
                 (mkMachine {["s1" := live_row]}
                    (mkEnv 0 [] [(10, json_utf8 200 "{ok:true}")])))
      as (_ & _ & _ & _ & Hjson & _); [scripted .. |].
    apply (Hjson "" "; charset=utf-8"). reflexivity.
  - edestruct (proxyRequest_relays as_tokens json_truthy base now uuid answer
                 (Some live_row) "s1" "GET" "/v1/users/me" None
                 (mkMachine {["s1" := live_row]}
                    (mkEnv 0 [] [(10, no_content 204)])))
      as (_ & _ & _ & Hjson & _); [scripted .. |].
    apply (Hjson "application/json"); reflexivity.
  - edestruct (proxyRequest_relays as_tokens json_truthy base now uuid answer
                 (Some live_row) "s1" "GET" "/v1/users/me" None
                 (mkMachine {["s1" := live_row]}
                    (mkEnv 0 [] [(10, html 404 "<h1>Not found</h1>")])))
      as (_ & _ & _ & _ & _ & Htext & _); [scripted .. |].
    apply Htext. right. eexists. split; reflexivity.
Defined.

(** A 401 for a session that has no refresh token. *)
Lemma proxyRequest_401_without_refresh_witness :
  let m := mkMachine {["s1" := fixed_row]} (mkEnv 0 [] [(10, plain 401 "denied")]) in
  let out := exec (forward (Some fixed_row) "s1") m in
  result out = session_expired ∧ sessions (final out) = sessions m ∧
  length (calls out) = 1%nat.
Proof.
  intros m out. subst out. unfold exec, forward.
  rewrite (proxyRequest_401_without_refresh as_tokens json_truthy base now uuid answer
             (Some fixed_row) "s1" "GET" "/v1/users/me" None m (mkEnv 10 [] []));
    [done | reflexivity | eexists; split; reflexivity].
Defined.

(** An upstream that does not answer at all. *)
Lemma proxyRequest_upstream_unavailable_witness :
  let m := mkMachine {["s1" := live_row]} (mkEnv 0 [] []) in
  let out := exec (forward (Some live_row) "s1") m in
  result out = internal_error ∧ sessions (final out) = sessions m.
Proof.
  intros m out.
  destruct (proxyRequest_upstream_unavailable as_tokens json_truthy base now uuid answer
              (Some live_row) "s1" "GET" "/v1/users/me" None m) as [Hdown _].
  subst out. unfold exec, forward. by erewrite Hdown.
Defined.

(** A reactive refresh of one session leaves the session next to it
    alone. *)
Lemma proxyRequest_frame_witness :
  let m := mkMachine {["s1" := live_row; "s2" := fixed_row]}
             (mkEnv 0 [] [(10, plain 401 "denied");
                          (10, credentials 200 renewed);
                          (10, plain 200 "done")]) in
  let out := exec (forward (Some live_row) "s1") m in
  dom (sessions (final out)) = dom (sessions m) ∧
  sessions (final out) !! "s2" = Some fixed_row.
Proof.
  intros m out.
  destruct (proxyRequest_frame as_tokens json_truthy base now uuid answer
              (Some live_row) "s1" "GET" "/v1/users/me" None m)
    as (Hdom & Hothers & _).
  split; [exact Hdom|].
  subst out. unfold exec, forward. rewrite (Hothers "s2"); [reflexivity | discriminate].
Defined.

(** A request 60 s before expiry: one refresh, then one forwarded call
    that the upstream answers. *)
Lemma protected_route_uses_fresh_token_witness :
  let m := mkMachine {["s1" := live_row]}
             (mkEnv 940000 [] [(10, credentials 200 renewed);
                               (10, json_utf8 200 "{ok:true}")]) in
  let out := exec (protected_route as_tokens json_truthy base (with_cookie "s1")
                     "GET" "/v1/users/me" None) m in
  length (calls out) = 2%nat ∧
  result out = mkReply 200 (JsonRelay (Document "{ok:true}")) CookieUntouched.
Proof.
  intros m out.
  edestruct (protected_route_uses_fresh_token as_tokens json_truthy base now uuid answer
               (with_cookie "s1") "s1" live_row "R0" "GET" "/v1/users/me" None m)
    as (Hcalls & Hresult & _); [scripted .. |].
  subst out. unfold exec. rewrite Hcalls, Hresult. split; reflexivity.
Defined.

(** A pincode login that the upstream accepts. *)
Lemma login_session_iff_cookie_witness :
  let m := mkMachine ∅ (mkEnv 5000 ["sid-1"] [(10, credentials 200 issued)]) in
  let out := exec login m in
  ∃ row, sessions (final out) = <["sid-1" := row]> (sessions m) ∧ user row = None.
Proof.
  intros m out.
  destruct (login_session_iff_cookie as_tokens base is_uuid now uuid answer m)
    as [Hpincode _].
  destruct (Hpincode (mkLoginPincode "123e4567-e89b-12d3-a456-426614174000" "1234"))
    as [_ [(sid & row & Hreply & Hstore & Huser & _) | (Hcookie & _)]].
  - vm_compute in Hreply. injection Hreply as <-.
    exists row. split; [exact Hstore | exact Huser].
  - discriminate Hcookie.
Defined.

(** A pincode of three characters, and a code of five. *)
Lemma login_rejects_malformed_payload_witness :
  let m := mkMachine ∅ (mkEnv 0 [] [(10, credentials 200 issued)]) in
  exec (login_pincode as_tokens base is_uuid
          (mkLoginPincode "123e4567-e89b-12d3-a456-426614174000" "123")) m
    = mkOutcome invalid_request m [] ∧
  exec (login_otp as_tokens base "12345") m = mkOutcome invalid_request m [].
Proof.
  intros m.
  destruct (login_rejects_malformed_payload as_tokens base is_uuid now uuid answer m)
    as [Hpincode Hotp].
  split; [apply Hpincode; right; cbn; lia | apply Hotp; cbn; lia].
Defined.

(** A forgot-password request without a body, and one the upstream
    accepts. *)
Lemma forgot_password_frame_witness :
  let m := mkMachine {["s1" := live_row]} (mkEnv 0 [] [(10, plain 200 "sent")]) in
  exec (forgot_password base zod None) m = mkOutcome invalid_request m [] ∧
  reply_body (result (exec (forgot_password base zod (Some "{email}")) m))
    = JsonSuccess.
Proof.
  intros m. split.
  - destruct (forgot_password_frame base now uuid answer zod None m)
      as (_ & _ & _ & _ & Hinvalid & _).
    apply Hinvalid. reflexivity.
  - destruct (forgot_password_frame base now uuid answer zod (Some "{email}") m)
      as (_ & _ & _ & _ & _ & Hsuccess).
    apply Hsuccess. eexists _, _, _. split_and!; reflexivity.
Defined.

(** Find a route in the table. *)
Ltac listed :=
  unfold routes;
  repeat first [apply list_elem_of_here | apply list_elem_of_further].

(** The notes of a ticket asked for without a cookie, and a ticket
    posted with the cookie of a session nobody has. *)
Lemma data_routes_require_session_witness :
  let m := mkMachine {["s1" := live_row]} (mkEnv 0 [] [(10, plain 200 "{}")]) in
  exec (handle_route ticket_notes (inbound anonymous None)) m
    = mkOutcome unauthorized m [] ∧
  exec (handle_route post_tickets (inbound (with_cookie "ghost") (Some "{}"))) m
    = mkOutcome session_expired m [].
Proof.
  intros m. split.
  - destruct (data_routes_require_session as_tokens json_truthy base is_uuid now uuid answer zod
                ticket_notes (inbound anonymous None) m) as [Hanonymous _];
      [listed | reflexivity |].
    apply Hanonymous. reflexivity.
  - destruct (data_routes_require_session as_tokens json_truthy base is_uuid now uuid answer zod
                post_tickets (inbound (with_cookie "ghost") (Some "{}")) m)
      as [_ Hghost]; [listed | reflexivity |].
    apply (Hghost "ghost"); scripted.
Defined.

(** A ticket posted without a body by a signed-in client. *)
Lemma validated_route_invalid_body_witness :
  let m := mkMachine {["s1" := live_row]} (mkEnv 0 [] [(10, plain 200 "{}")]) in
  let out := exec (handle_route post_tickets (inbound (with_cookie "s1") None)) m in
  result out = invalid_request ∧ calls out = [] ∧ final out = m.
Proof.
  intros m out.
  destruct (validated_route_invalid_body as_tokens json_truthy base is_uuid now uuid answer zod
              post_tickets "POST" (Fixed "/v1/tickets") createTicketSchema
              (inbound (with_cookie "s1") None) m)
    as (Hresult & Hcalls & Hfinal & _); [reflexivity .. |].
  split_and!; [exact Hresult | exact Hcalls | exact Hfinal].
Defined.

(** The notes of a ticket, asked for 60 s before the session expires,
    once with the id 42 and once with an id made of dot segments. *)
Lemma data_routes_url_templates_witness :
  let m := mkMachine {["s1" := live_row]}
             (mkEnv 940000 [] [(10, credentials 200 renewed);
                               (10, plain 200 "[]")]) in
  let urls inb := url <$> calls (exec (handle_route ticket_notes inb) m) in
  urls (inbound (with_cookie "s1") None)
    = [base +:+ "/v1/authenticate/refresh"; base +:+ "/v1/tickets/42/notes"] ∧
  urls (dotted (with_cookie "s1"))
    = [base +:+ "/v1/authenticate/refresh";
       base +:+ "/v1/tickets/../../legacy/notes"].
Proof.
  intros m urls.
  assert (∀ id,
            let inb := mkInbound (with_cookie "s1") id "" None
                         (mkLoginPincode "" "") "" in
            urls inb = [base +:+ "/v1/authenticate/refresh";
                        base +:+ "/v1/tickets/" +:+ id +:+ "/notes"])
    as Hurls.
  { intros id inb. subst urls. cbn beta.
    destruct (data_routes_url_templates as_tokens json_truthy base is_uuid
                now uuid answer zod ticket_notes inb m)
      as (target & payload & Hhandler & _ & Hpath & Hall); [listed | reflexivity |].
    injection Hhandler as <- _.
    assert (∃ refresh forwarded,
              calls (exec (handle_route ticket_notes inb) m) = [refresh; forwarded] ∧
              is_refresh refresh = true ∧ is_refresh forwarded = false)
      as (refresh & forwarded & Hlist & Hrefresh & Hforward).
    { eexists _, _. split_and!; reflexivity. }
    unfold exec, handle_route in *. rewrite Hlist in Hall |- *.
    cbn [fmap list_fmap].
    apply Forall_cons in Hall as [[_ Hfirst] Hall].
    apply Forall_cons in Hall as [[_ Hsecond] _].
    rewrite Hrefresh in Hfirst. rewrite Hforward in Hsecond.
    destruct Hfirst as [-> _]. destruct Hsecond as [-> _].
    by rewrite (Hpath "/v1/tickets/" "/notes"). }
  split; [apply (Hurls "42") | apply (Hurls "../../legacy")].
Defined.

(** The session query of a signed-in client. *)
Lemma routes_never_store_identity_witness :
  let m := mkMachine {["s1" := live_row]} (mkEnv 0 [] []) in
  let out := exec (handle_route session_query (inbound (with_cookie "s1") None)) m in
  no_identity (sessions (final out)) ∧
  ∀ info, reply_body (result out) = JsonSessionInfo info →
          info_user info = None ∧ info_customer info = None.
Proof.
  intros m out.
  apply (routes_never_store_identity as_tokens json_truthy base is_uuid now uuid answer zod
           session_query (inbound (with_cookie "s1") None) m).
  intros sessionId row Hrow.
  change (({["s1" := live_row]} : gmap string SessionData) !! sessionId = Some row)
    in Hrow.
  apply lookup_singleton_Some in Hrow as [_ <-]. split; reflexivity.
Defined.

(** A protected request 60 s before expiry, a logout while its refresh
    is in flight, and the refresh completing. *)
Lemma logout_during_refresh_witness :
  let m := mkMachine {["s1" := live_row]}
             (mkEnv 940000 [] [(10, credentials 200 renewed)]) in
  let server :=
    schedule now uuid answer
      (mkServer
         [Ready (protected_route as_tokens json_truthy base (with_cookie "s1")
                   "GET" "/v1/users/me" None);
          Ready (logout (with_cookie "s1"))] m)
      [0; 1; 0]%nat in
  sessions (machine server) !! "s1" = None.
Proof.
  intros m server.
  edestruct (logout_during_refresh as_tokens json_truthy base now uuid answer
               (with_cookie "s1") "s1" live_row "R0" "GET" "/v1/users/me" None m)
    as (Hstore & _); [scripted .. |].
  subst server. rewrite Hstore. apply lookup_delete_eq.
Defined.

(** Two requests 60 s before expiry; the first refresh rotates the
    refresh token, the second, completing later, does not. *)
Lemma concurrent_refreshes_last_writer_wins_witness :
  let m := mkMachine {["s1" := live_row]}
             (mkEnv 940000 [] [(10, credentials 200 issued);
                               (10, credentials 200 renewed)]) in
  let server :=
    schedule now uuid answer
      (mkServer [Ready (resolve "s1"); Ready (resolve "s1")] m)
      [0; 1; 0; 1]%nat in
  sessions (machine server) !! "s1" = Some (refreshed live_row renewed 940020) ∧
  refreshToken <$> sessions (machine server) !! "s1" = Some (Some "R0").
Proof.
  intros m server.
  edestruct (concurrent_refreshes_last_writer_wins as_tokens json_truthy base now uuid answer
               (with_cookie "s1") "s1" live_row "R0" m)
    as (_ & Hrow & Hlost); [scripted .. |].
  split; [exact Hrow | apply Hlost; reflexivity].
Defined.

(** A request 60 s before expiry whose forwarded call is answered 401
    right after the refresh. *)
Lemma protected_route_double_refresh_witness :
  let m := mkMachine {["s1" := live_row]}
             (mkEnv 940000 [] [(10, credentials 200 issued);
                               (10, plain 401 "denied");
                               (10, credentials 200 renewed);
                               (10, plain 200 "done")]) in
  let out := exec (protected_route as_tokens json_truthy base (with_cookie "s1")
                     "GET" "/v1/users/me" None) m in
  refresh_calls (calls out) = 2%nat ∧ length (calls out) = 4%nat.
Proof.
  intros m out.
  edestruct (protected_route_double_refresh as_tokens json_truthy base now uuid answer
               (with_cookie "s1") "s1" live_row "R0" "GET" "/v1/users/me" None m)
    as (Hcalls & Hrefreshes & _); [scripted .. |].
  subst out. unfold exec. split; [exact Hrefreshes | by rewrite Hcalls].
Defined.

End Scenarios.
